(** * Mahjong new-year lottery: registration, scratch prize and admin lists

  A shallow embedding of [src/index.jsx].  The campaign logic of the page
  lives in a handful of functions of the [App] component ([determinePrize],
  [handleSubmit], [fetchAdminData], [clearAllData]), in the helper
  [generateSerial], and in the canvas handlers of [ScratchCard].  Each of
  them is transcribed below under its own name.

  Numbers.  JavaScript numbers are binary64 floats.  The weighted selection
  loop is written once, over an arbitrary carrier with an addition and a
  [<=] test, and is instantiated twice: with exact rationals [Q] (the
  reading under which the decimal literals of the prize table mean what
  they say) and with Rocq's primitive binary64 floats (the arithmetic the
  browser performs).  Integers (limits, counts, durations, seconds) are [Z].

  Store.  Firestore is modelled as a record with the [orders] collection
  (document id to document) and the [stats/prize_counts] document.  Code
  that awaits the store runs in a small state-and-exception monad; which
  calls reject, what [Math.random] returns, and which Firestore functions
  are loaded is read from an explicit environment. *)

From stdpp Require Import gmap strings list fin_maps.
From Stdlib Require Import ZArith QArith Qround Lqa Lia.
From Stdlib Require Import Sorting.Sorted Sorting.Permutation.
From Stdlib Require PrimFloat SpecFloat FloatOps FloatAxioms.
From Stdlib Require Import Ascii.

Local Open Scope string_scope.
Local Open Scope Z_scope.

(** ** Prize definitions *)

(** [type: 'none' | 'win'] *)
Inductive PrizeType := type_none | type_win.

#[global] Instance PrizeType_eq_dec : EqDecision PrizeType.
Proof. solve_decision. Defined.

(** One entry of [PRIZES]; [limit = -1] is the "unlimited" sentinel. *)
Record Prize (num : Type) := mkPrize {
id : string;
name : string;
type : PrizeType;
prob : num;
limit : Z
}.
Arguments mkPrize {num}.
Arguments id {num}.
Arguments name {num}.
Arguments type {num}.
Arguments prob {num}.
Arguments limit {num}.

(** ** The weighted selection loop of [determinePrize]

<<
  let cumulative = 0;
  let selectedPrize = PRIZES[0];
  for (const p of PRIZES) {
    cumulative += p.prob;
    if (rand <= cumulative) { selectedPrize = p; break; }
  }
>>
*)
Section WeightedSelection.
Context {num : Type}.
Variable zero : num.
Variable add : num -> num -> num.
Variable leb : num -> num -> bool.

(** The loop, started with the part of the table still to visit, the
    running [cumulative] and the current [selectedPrize]. *)
Fixpoint selectFrom (rand : num) (ps : list (Prize num))
         (cumulative : num) (selectedPrize : Prize num) : Prize num :=
  match ps with
  | [] => selectedPrize
  | p :: rest =>
      let cumulative := add cumulative (prob p) in
      if leb rand cumulative then p
      else selectFrom rand rest cumulative selectedPrize
  end.

(** [first] is [PRIZES[0]] of a non-empty table. *)
Definition weightedSelect (first : Prize num) (table : list (Prize num))
           (rand : num) : Prize num :=
  selectFrom rand table zero first.

(** The running sums the loop compares [rand] with, in table order. *)
Fixpoint cumulativeSums (ps : list (Prize num)) (cumulative : num) : list num :=
  match ps with
  | [] => []
  | p :: rest =>
      let cumulative := add cumulative (prob p) in
      cumulative :: cumulativeSums rest cumulative
  end.

(** The selector as the specification words it (section 8), kept apart
    from the loop above so that the two can be compared: the entry whose
    half-open interval [[previous sum, own sum)] holds [rand], a boundary
    value going to the next entry, and the last entry when [rand] is above
    every sum.  [ltb] is the strict comparison. *)
Variable ltb : num -> num -> bool.

Fixpoint halfOpenFrom (rand : num) (ps : list (Prize num))
         (cumulative : num) (last : Prize num) : Prize num :=
  match ps with
  | [] => last
  | p :: rest =>
      let cumulative := add cumulative (prob p) in
      if ltb rand cumulative then p
      else halfOpenFrom rand rest cumulative p
  end.

Definition halfOpenSelect (first : Prize num) (table : list (Prize num))
           (rand : num) : Prize num :=
  halfOpenFrom rand table zero first.

End WeightedSelection.

(** ** The prize table, read exactly and read in binary64 *)

Definition Qleb (x y : Q) : bool := Qle_bool x y.
Definition Qltb (x y : Q) : bool := negb (Qle_bool y x).

Definition none_1 : Prize Q := mkPrize "none_1" "銘謝惠顧" type_none (38 # 100) (-1).
Definition none_2 : Prize Q := mkPrize "none_2" "下次再加油" type_none (38 # 100) (-1).
Definition ext_1h : Prize Q := mkPrize "ext_1h" "1小時續時券" type_win (10 # 100) (-1).
Definition disc_50 : Prize Q := mkPrize "disc_50" "50元折價券" type_win (10 # 100) (-1).
Definition ext_2h : Prize Q := mkPrize "ext_2h" "2小時續時券" type_win (34 # 1000) 30.
Definition free_2h : Prize Q := mkPrize "free_2h" "2小時免費包廂卷" type_win (5 # 1000) 15.
Definition free_4h : Prize Q := mkPrize "free_4h" "4小時免費包廂卷" type_win (1 # 1000) 5.

Definition PRIZES : list (Prize Q) :=
  [none_1; none_2; ext_1h; disc_50; ext_2h; free_2h; free_4h].

(** [PRIZES[0]] *)
Definition PRIZES_0 : Prize Q := none_1.

(** The selection of [determinePrize] on [PRIZES], in exact arithmetic.
    Which entry a given [Math.random()] value selects is settled on
    [Binary64.selectPrize] below, where the sums are the rounded ones. *)
Definition selectPrize (rand : Q) : Prize Q :=
  weightedSelect 0%Q Qplus Qleb PRIZES_0 PRIZES rand.

(** The selection the specification words describe, on the same table. *)
Definition selectPrize_halfOpen (rand : Q) : Prize Q :=
  halfOpenSelect 0%Q Qplus Qltb PRIZES_0 PRIZES rand.

Module Binary64.
Import PrimFloat.
Set Warnings "-inexact-float".

(** The same table with the literals rounded to binary64, as the
    JavaScript engine reads them. *)
Definition PRIZES : list (Prize float) :=
  [ mkPrize "none_1" "銘謝惠顧" type_none 0.38%float (-1);
    mkPrize "none_2" "下次再加油" type_none 0.38%float (-1);
    mkPrize "ext_1h" "1小時續時券" type_win 0.10%float (-1);
    mkPrize "disc_50" "50元折價券" type_win 0.10%float (-1);
    mkPrize "ext_2h" "2小時續時券" type_win 0.034%float 30;
    mkPrize "free_2h" "2小時免費包廂卷" type_win 0.005%float 15;
    mkPrize "free_4h" "4小時免費包廂卷" type_win 0.001%float 5 ].

Definition PRIZES_0 : Prize float :=
  mkPrize "none_1" "銘謝惠顧" type_none 0.38%float (-1).

Definition selectPrize (rand : float) : Prize float :=
  weightedSelect 0%float add leb PRIZES_0 PRIZES rand.

Definition selectPrize_halfOpen (rand : float) : Prize float :=
  halfOpenSelect 0%float add ltb PRIZES_0 PRIZES rand.

(** The double nearest to 0.38, the first running sum. *)
Definition firstBoundary : float := 0.38%float.

(** [PRIZES[i]] *)
Definition entry (i : nat) : Prize float := nth i PRIZES PRIZES_0.

(** The value of [cumulative] once the loop has added the probability of
    [PRIZES[i]]. *)
Definition runningSum (i : nat) : float :=
  nth i (cumulativeSums add PRIZES 0%float) nan.

(** The doubles the seven running sums are expected to be. *)
Definition expectedSums : list float :=
  [0.38; 0.76000000000000001; 0.85999999999999999; 0.95999999999999996;
   0.99399999999999999; 0.999; 1]%float.
End Binary64.

(** ** Helper functions *)

(** [Number.prototype.toString] on a non-negative integer: its decimal
    digits, most significant first.  [fuel] bounds the number of digits.
    (JavaScript numbers hold the integers below 2^53 exactly and write them
    digit by digit; the model stands for the built-in on such values.) *)
Definition digitChar (d : Z) : ascii := ascii_of_nat (48 + Z.to_nat d).

Fixpoint digitsOf (fuel : nat) (n : Z) (acc : string) : string :=
  match fuel with
  | O => acc
  | S fuel' =>
      let acc' := String (digitChar (n mod 10)) acc in
      if n / 10 =? 0 then acc' else digitsOf fuel' (n / 10) acc'
  end.

Definition toString (n : Z) : string :=
  if n <? 0 then String "-" (digitsOf (S (Z.to_nat (Z.log2 (- n)))) (- n) "")
  else digitsOf (S (Z.to_nat (Z.log2 n))) n "".

(** [Math.floor(100000 + Math.random() * 900000).toString()], with the
    value [Math.random()] returned passed in.  The arithmetic is exact: the
    range and the number of digits of the result are those of the rounded
    computation, the serial a particular value yields can differ by one. *)
Definition generateSerial (random : Q) : string :=
  toString (Qfloor (100000 + random * 900000)).

(** [\d] of a JavaScript regular expression: an ASCII digit. *)
Definition isDigit (c : ascii) : bool :=
  let n := nat_of_ascii c in (48 <=? n)%nat && (n <=? 57)%nat.

Fixpoint allDigits (s : string) : bool :=
  match s with
  | EmptyString => true
  | String c rest => isDigit c && allDigits rest
  end.

(** [/^09\d{8}$/.test(phone)] *)
Definition phoneRegex_test (phone : string) : bool :=
  match phone with
  | String "0" (String "9" rest) => (String.length rest =? 8)%nat && allDigits rest
  | _ => false
  end.

(** [/^\d{6}$/.test(s)], the shape the specification gives a serial. *)
Definition sixDigits_test (s : string) : bool :=
  (String.length s =? 6)%nat && allDigits s.

(** [parseInt] applied to a value that already is an integer number (the
    duration select stores [parseInt(e.target.value)]). *)
Definition parseInt (n : Z) : Z := n.

(** ** Documents of the store *)

(** [formData] *)
Record FormData := mkFormData {
  phone : string;
  date : string;
  branch : string;
  room : string;
  duration : Z
}.

(** A Firestore timestamp; the page only ever reads [seconds]. *)
Record Timestamp := mkTimestamp { seconds : Z }.

(** A document of the [orders] collection.  [form] is the spread
    [...formData]; [timestamp] and [note] are optional because the page
    reads them as [a.timestamp?.seconds || 0] and [row.note || '']. *)
Record Order := mkOrder {
  form : FormData;
  userId : string;
  isGrandEligible : bool;
  grandDrawSerial : option string;
  scratchPrizeId : string;
  scratchPrizeName : string;
  scratchPrizeType : PrizeType;
  prizeSent : bool;
  timestamp : option Timestamp;
  note : option string
}.

(** The two places under [artifacts/{appId}/public/data] the page touches:
    the [orders] collection and the document [stats/prize_counts] ([None]
    when the document does not exist). *)
Record Store := mkStore {
  orders : gmap string Order;
  prize_counts : option (gmap string Z)
}.

(** What a rejected Firestore call carries, as far as the handlers look at
    it: whether it is a permission error. *)
Inductive FirestoreError := permission_denied | other_error.

(** Everything a handler reads from outside the store. *)
Record Env := mkEnv {
  firestoreFn : string -> bool;
  db : bool;
  getDocs_rejects : option FirestoreError;
  getDoc_rejects : option FirestoreError;
  addDoc_rejects : option FirestoreError;
  deleteDoc_rejects : string -> option FirestoreError;
  random_serial : Q;
  random_prize : Q;
  autoId : string;
  serverTimestamp : Z;
  confirm_first : bool;
  confirm_second : bool
}.

(** ** Awaited store calls: state and exceptions *)

Definition M (A : Type) : Type := Store -> (FirestoreError + A) * Store.

#[global] Instance M_ret : MRet M := fun A (a : A) (s : Store) => (inr a, s).

#[global] Instance M_bind : MBind M := fun A B (k : A -> M B) (m : M A) =>
  fun s =>
    match m s with
    | (inr a, s') => k a s'
    | (inl e, s') => (inl e, s')
    end.

Definition ret {A} (a : A) : M A := mret a.

Definition throw {A} (e : FirestoreError) : M A := fun s => (inl e, s).

(** [try { body } catch (err) { handler }] *)
Definition try_catch {A} (body : M A) (handler : FirestoreError -> M A) : M A :=
  fun s =>
    match body s with
    | (inr a, s') => (inr a, s')
    | (inl e, s') => handler e s'
    end.

(** The documents of [orders] that satisfy both [where] clauses of the
    duplicate query. *)
Definition ordersWhere (p d : string) (s : Store) : list (string * Order) :=
  List.filter
    (fun doc => String.eqb (phone (form (snd doc))) p
                && String.eqb (date (form (snd doc))) d)
    (map_to_list (orders s)).

Section Firestore.
Variable env : Env.

(** [getFirestoreFn(fnName)] is defined *)
Definition getFirestoreFn (fnName : string) : bool := firestoreFn env fnName.

(** [getDocs(query(orders, where('phone','==',p), where('date','==',d)))] *)
Definition getDocs_where (p d : string) : M (list (string * Order)) :=
  fun s =>
    match getDocs_rejects env with
    | Some e => (inl e, s)
    | None => (inr (ordersWhere p d s), s)
    end.

(** [getDocs(collection(..., 'orders'))] *)
Definition getDocs : M (list (string * Order)) :=
  fun s =>
    match getDocs_rejects env with
    | Some e => (inl e, s)
    | None => (inr (map_to_list (orders s)), s)
    end.

(** [getDoc(doc(..., 'stats', 'prize_counts'))]: [None] is a snapshot
    whose [exists()] is false. *)
Definition getDoc_prize_counts : M (option (gmap string Z)) :=
  fun s =>
    match getDoc_rejects env with
    | Some e => (inl e, s)
    | None => (inr (prize_counts s), s)
    end.

(** [addDoc(collection(..., 'orders'), data)], giving the new document id *)
Definition addDoc (data : Order) : M string :=
  fun s =>
    match addDoc_rejects env with
    | Some e => (inl e, s)
    | None =>
        (inr (autoId env),
         mkStore (<[autoId env := data]> (orders s)) (prize_counts s))
    end.

(** [deleteDoc(doc(..., 'orders', docId))] *)
Definition deleteDoc (docId : string) : M unit :=
  fun s =>
    match deleteDoc_rejects env docId with
    | Some e => (inl e, s)
    | None => (inr tt, mkStore (delete docId (orders s)) (prize_counts s))
    end.

(** [await Promise.all(ids.map(id => deleteDoc(...)))]: every delete is
    issued; the await rejects with the first rejection, if any. *)
Fixpoint Promise_all_deleteDoc (ids : list string) : M unit :=
  match ids with
  | [] => ret tt
  | docId :: rest =>
      fun s =>
        match deleteDoc docId s with
        | (inr _, s') => Promise_all_deleteDoc rest s'
        | (inl e, s') =>
            match Promise_all_deleteDoc rest s' with
            | (_, s'') => (inl e, s'')
            end
        end
  end.

End Firestore.

(** ** [determinePrize] *)

(** [statsSnap.data()[id] || 0]; a stored count is an integer, and on an
    integer [c || 0] is [c]. *)
Definition countOr0 (data : gmap string Z) (prizeId : string) : Z :=
  match data !! prizeId with
  | Some c => c
  | None => 0
  end.

(** [currentCount] as [determinePrize] computes it from the snapshot. *)
Definition currentCount (statsSnap : option (gmap string Z)) (prizeId : string) : Z :=
  match statsSnap with
  | Some data => countOr0 data prizeId
  | None => 0
  end.

Section DeterminePrize.
Variable env : Env.
(** The table the function closes over and its entry 0; [determinePrize]
    below fixes them to [PRIZES] and [PRIZES[0]]. *)
Variable table : list (Prize Q).
Variable first : Prize Q.

(** [PRIZES.find(p => p.id === 'disc_50') || PRIZES[0]] *)
Definition fallbackPrize : Prize Q :=
  match List.find (fun p => String.eqb (id p) "disc_50") table with
  | Some p => p
  | None => first
  end.

(** The limit check on an already selected prize: the [if] block after the
    selection loop, followed by the final [return selectedPrize]. *)
Definition checkLimit (selectedPrize : Prize Q) : M (Prize Q) :=
  if negb (limit selectedPrize =? -1) then
    try_catch
      (if negb (getFirestoreFn env "doc" && getFirestoreFn env "getDoc" && db env)
       then ret selectedPrize
       else
         statsSnap ← getDoc_prize_counts env;
         if limit selectedPrize <=? currentCount statsSnap (id selectedPrize)
         then ret fallbackPrize
         else ret selectedPrize)
      (fun e => ret first)
  else ret selectedPrize.

Definition determinePrizeOn : M (Prize Q) :=
  let rand := random_prize env in
  let selectedPrize := weightedSelect 0%Q Qplus Qleb first table rand in
  checkLimit selectedPrize.

End DeterminePrize.

Definition determinePrize (env : Env) : M (Prize Q) :=
  determinePrizeOn env PRIZES PRIZES_0.

(** ** [handleSubmit] *)

(** The ways [handleSubmit] ends, named after what it shows the user. *)
Inductive SubmitOutcome :=
| NoUser            (* if (!user) return; *)
| InvalidInput      (* the phone number is not of the form 09xxxxxxxx *)
| StoreNotReady     (* the database connection is not ready yet *)
| DuplicateEntry    (* this phone number already took part on this date *)
| Registered (orderId : string) (prize : Prize Q) (serial : option string)
                    (* setOrderId, setGrandDrawSerial, setScratchResult, setView('scratch') *)
| PermissionError   (* catch: insufficient permissions *)
| SystemBusy.       (* catch: any other error *)

Section HandleSubmit.
Variable env : Env.

Definition submitFnsLoaded : bool :=
  getFirestoreFn env "collection" && getFirestoreFn env "query"
  && getFirestoreFn env "where" && getFirestoreFn env "getDocs"
  && getFirestoreFn env "addDoc" && getFirestoreFn env "serverTimestamp"
  && db env.

Definition addFnsLoaded : bool :=
  getFirestoreFn env "addDoc" && getFirestoreFn env "collection"
  && getFirestoreFn env "serverTimestamp" && db env.

(** The object literal passed to [addDoc]. *)
Definition newOrder (formData : FormData) (uid : string)
           (eligible : bool) (serial : option string) (prize : Prize Q) : Order :=
  {| form := formData;
     userId := uid;
     isGrandEligible := eligible;
     grandDrawSerial := serial;
     scratchPrizeId := id prize;
     scratchPrizeName := name prize;
     scratchPrizeType := type prize;
     prizeSent := false;
     timestamp := Some (mkTimestamp (serverTimestamp env));
     note := None |}.

Definition handleSubmit (user : option string) (formData : FormData) : M SubmitOutcome :=
  match user with
  | None => ret NoUser
  | Some uid =>
      if negb (phoneRegex_test (phone formData)) then ret InvalidInput
      else
        try_catch
          (if negb submitFnsLoaded then ret StoreNotReady
           else
             snapshot ← getDocs_where env (phone formData) (date formData);
             if negb (bool_decide (snapshot = [])) then ret DuplicateEntry
             else
               let isGrandEligible := 4 <=? parseInt (duration formData) in
               let serial :=
                 if isGrandEligible then Some (generateSerial (random_serial env))
                 else None in
               prize ← determinePrize env;
               if negb addFnsLoaded then ret StoreNotReady
               else
                 docRef ← addDoc env (newOrder formData uid isGrandEligible serial prize);
                 ret (Registered docRef prize serial))
          (fun err =>
             match err with
             | permission_denied => ret PermissionError
             | other_error => ret SystemBusy
             end)
  end.

End HandleSubmit.

(** ** Admin: [fetchAdminData] and [clearAllData] *)

(** [a.timestamp?.seconds || 0] *)
Definition timeOf (row : string * Order) : Z :=
  match timestamp (snd row) with
  | Some t => seconds t
  | None => 0
  end.

(** [Array.prototype.sort(compare)]: a stable sort; [compare a b <= 0]
    keeps [a] before [b]. *)
Section ArraySort.
Context {A : Type}.
Variable compare : A -> A -> Z.

Fixpoint sortInsert (a : A) (sorted : list A) : list A :=
  match sorted with
  | [] => [a]
  | b :: rest =>
      if compare a b <=? 0 then a :: b :: rest
      else b :: sortInsert a rest
  end.

Definition Array_sort (data : list A) : list A :=
  List.fold_right sortInsert [] data.
End ArraySort.

(** [(a, b) => timeB - timeA] *)
Definition byTimeDesc (a b : string * Order) : Z := timeOf b - timeOf a.

(** The filter and sort applied to the rows [{ id: d.id, ...d.data() }]. *)
Definition adminRows (tab : string) (data : list (string * Order)) : list (string * Order) :=
  let data :=
    if String.eqb tab "grand"
    then List.filter (fun d => isGrandEligible (snd d)) data
    else List.filter (fun d => bool_decide (scratchPrizeType (snd d) = type_win)) data in
  Array_sort byTimeDesc data.

Inductive AdminOutcome :=
| AdminNotReady                               (* alert: connection not ready *)
| AdminData (rows : list (string * Order))    (* setAdminData(data) *)
| AdminPermissionError                        (* alert: insufficient permissions *)
| AdminQueryFailed.                           (* alert: query failed *)

Definition fetchAdminData (env : Env) (tab : string) : M AdminOutcome :=
  if negb (getFirestoreFn env "collection" && getFirestoreFn env "getDocs" && db env)
  then ret AdminNotReady
  else
    try_catch
      (snap ← getDocs env;
       ret (AdminData (adminRows tab snap)))
      (fun err =>
         match err with
         | permission_denied => ret AdminPermissionError
         | other_error => ret AdminQueryFailed
         end).

Inductive ClearOutcome :=
| ClearCancelled          (* one of the two confirm dialogs was declined *)
| ClearNotReady           (* alert: connection not ready *)
| Cleared (n : nat)       (* alert: n records deleted *)
| ClearPermissionError    (* alert: insufficient permissions *)
| ClearFailed.            (* alert: clearing failed *)

Definition clearAllData (env : Env) : M ClearOutcome :=
  if negb (confirm_first env) then ret ClearCancelled
  else if negb (confirm_second env) then ret ClearCancelled
  else
    try_catch
      (if negb (getFirestoreFn env "collection" && getFirestoreFn env "getDocs"
                && getFirestoreFn env "deleteDoc" && getFirestoreFn env "doc"
                && db env)
       then ret ClearNotReady
       else
         snapshot ← getDocs env;
         _ ← Promise_all_deleteDoc env (List.map fst snapshot);
         ret (Cleared (length snapshot)))
      (fun err =>
         match err with
         | permission_denied => ret ClearPermissionError
         | other_error => ret ClearFailed
         end).

(** ** [ScratchCard]: the reveal detector *)

(** The component keeps the canvas, the flag [isDrawing] of the effect
    closure, the React state [isRevealed] and its mirror [isRevealedRef].
    Of every canvas pixel only the alpha byte is kept ([pixels[i + 3]] for
    [i] stepping by 4 is all [checkReveal] reads).  [opacityZero] records
    [canvas.style.opacity = '0'] and [completions] counts the
    [setTimeout(() => onCompleteRef.current(), 400)] calls made. *)
Record Scratch := mkScratch {
  width : Z;
  height : Z;
  alpha : list Z;
  isDrawing : bool;
  isRevealed : bool;
  isRevealedRef : bool;
  opacityZero : bool;
  completions : nat
}.

Inductive Event :=
| PointerDown                                (* mousedown, touchstart *)
| PointerMove (x y : Q)                      (* mousemove, touchmove, at getPos(e) *)
| PointerUp                                  (* mouseup, touchend *)
| Resize (offsetWidth offsetHeight : Z).     (* ResizeObserver callback *)

(** [transparent]: the pixels whose alpha is below 128. *)
Fixpoint countTransparent (alphas : list Z) : Z :=
  match alphas with
  | [] => 0
  | a :: rest => (if a <? 128 then 1 else 0) + countTransparent rest
  end.

(** [(transparent / (pixels.length / 4)) * 100] *)
Definition percentCleared (alphas : list Z) : Q :=
  (inject_Z (countTransparent alphas) / inject_Z (Z.of_nat (length alphas))) * 100.

(** [percent > 75] *)
Definition exceedsThreshold (alphas : list Z) : bool :=
  Qltb 75 (percentCleared alphas).

Section ScratchCard.
(** What [ctx.arc(x, y, 20, 0, 2π); ctx.fill()] under [destination-out]
    does to the alpha bytes of a [width] by [height] canvas is left to the
    browser; the handlers below are written against any such rasteriser. *)
Variable fillArc : Z -> Z -> Q -> Q -> list Z -> list Z.

(** [container.offsetWidth || 288], [container.offsetHeight || 160] *)
Definition orDefault (v d : Z) : Z := if v =? 0 then d else v.

(** [initCanvas]: size the canvas and paint the opaque silver overlay. *)
Definition initCanvas (offsetWidth offsetHeight : Z) (s : Scratch) : Scratch :=
  let w := orDefault offsetWidth 288 in
  let h := orDefault offsetHeight 160 in
  mkScratch w h (List.repeat 255 (Z.to_nat (w * h)))
            (isDrawing s) (isRevealed s) (isRevealedRef s)
            (opacityZero s) (completions s).

Definition scratch (x y : Q) (s : Scratch) : Scratch :=
  mkScratch (width s) (height s) (fillArc (width s) (height s) x y (alpha s))
            (isDrawing s) (isRevealed s) (isRevealedRef s)
            (opacityZero s) (completions s).

Definition checkReveal (s : Scratch) : Scratch :=
  if exceedsThreshold (alpha s) then
    mkScratch (width s) (height s) (alpha s) (isDrawing s)
              true (isRevealedRef s) true (S (completions s))
  else s.

Definition startDraw (s : Scratch) : Scratch :=
  mkScratch (width s) (height s) (alpha s) true
            (isRevealed s) (isRevealedRef s) (opacityZero s) (completions s).

Definition endDraw (s : Scratch) : Scratch :=
  checkReveal
    (mkScratch (width s) (height s) (alpha s) false
               (isRevealed s) (isRevealedRef s) (opacityZero s) (completions s)).

Definition draw (x y : Q) (s : Scratch) : Scratch :=
  if negb (isDrawing s) || isRevealedRef s then s
  else checkReveal (scratch x y s).

Definition handle (e : Event) (s : Scratch) : Scratch :=
  match e with
  | PointerDown => startDraw s
  | PointerMove x y => draw x y s
  | PointerUp => endDraw s
  | Resize w h => initCanvas w h s
  end.

(** [useEffect(() => { isRevealedRef.current = isRevealed }, [isRevealed])] *)
Definition syncRevealedRef (s : Scratch) : Scratch :=
  mkScratch (width s) (height s) (alpha s) (isDrawing s)
            (isRevealed s) (isRevealed s) (opacityZero s) (completions s).

(** One browser event: the listener runs, then React re-renders and runs
    the effect before the next event is delivered. *)
Definition dispatch (e : Event) (s : Scratch) : Scratch :=
  syncRevealedRef (handle e s).

Definition run (events : list Event) (s : Scratch) : Scratch :=
  List.fold_left (fun s e => dispatch e s) events s.

(** The component right after mounting in a container of the given size. *)
Definition mounted (offsetWidth offsetHeight : Z) : Scratch :=
  initCanvas offsetWidth offsetHeight
             (mkScratch 288 160 [] false false false false 0).

(** The Active to Revealed transitions made while handling the events. *)
Fixpoint transitions (events : list Event) (s : Scratch) : nat :=
  match events with
  | [] => 0
  | e :: rest =>
      ((if negb (isRevealed s) && isRevealed (dispatch e s) then 1 else 0)
       + transitions rest (dispatch e s))%nat
  end.
End ScratchCard.

(** The events that are not clear operations: pointer releases. *)
Definition isRelease (e : Event) : bool :=
  match e with
  | PointerUp => true
  | _ => false
  end.

(** What holds between two events: the ref mirrors the state, and while
    the card is still active the overlay has not passed the threshold. *)
Definition settled (s : Scratch) : Prop :=
  isRevealedRef s = isRevealed s /\
  (isRevealed s = false -> exceedsThreshold (alpha s) = false).

(** A rasteriser without anti-aliasing, used to run the detector: the
    pixels whose centre lies within 20 of [(x, y)] become transparent. *)
Fixpoint discFrom (w : Z) (x y : Q) (k : Z) (alphas : list Z) : list Z :=
  match alphas with
  | [] => []
  | a :: rest =>
      let dx := (inject_Z (k mod w) + (1 # 2) - x)%Q in
      let dy := (inject_Z (k / w) + (1 # 2) - y)%Q in
      (if Qle_bool (dx * dx + dy * dy) 400 then 0 else a)
        :: discFrom w x y (k + 1) rest
  end.

Definition discFill (w h : Z) (x y : Q) (alphas : list Z) : list Z :=
  discFrom w x y 0 alphas.

(** [row.note || ''], as the admin table passes the note to [NoteEditor]. *)
Definition noteShown (o : Order) : string :=
  match note o with
  | Some n => n
  | None => ""
  end.

(** A run of registrations, one [handleSubmit] after another, each with its
    own environment, user and form; only the store is carried over. *)
Definition registerAll (requests : list (Env * option string * FormData))
           (s : Store) : Store :=
  List.fold_left
    (fun s r => snd (handleSubmit (fst (fst r)) (snd (fst r)) (snd r) s))
    requests s.

(** ** Sample data used to run the definitions *)

(** Every Firestore function loaded, no call rejecting, both confirm
    dialogs accepted; the two [Math.random()] values are left open. *)
Definition readyEnv (serialRandom prizeRandom : Q) : Env :=
  {| firestoreFn := fun _ => true;
     db := true;
     getDocs_rejects := None;
     getDoc_rejects := None;
     addDoc_rejects := None;
     deleteDoc_rejects := fun _ => None;
     random_serial := serialRandom;
     random_prize := prizeRandom;
     autoId := "order-2";
     serverTimestamp := 1738400000;
     confirm_first := true;
     confirm_second := true |}.

(** The same, with the read of [stats/prize_counts] rejecting. *)
Definition statsDownEnv (prizeRandom : Q) : Env :=
  {| firestoreFn := fun _ => true;
     db := true;
     getDocs_rejects := None;
     getDoc_rejects := Some other_error;
     addDoc_rejects := None;
     deleteDoc_rejects := fun _ => None;
     random_serial := 1 # 2;
     random_prize := prizeRandom;
     autoId := "order-2";
     serverTimestamp := 1738400000;
     confirm_first := true;
     confirm_second := true |}.

(** The same, with the Firestore module not loaded at all. *)
Definition notLoadedEnv (prizeRandom : Q) : Env :=
  {| firestoreFn := fun _ => false;
     db := false;
     getDocs_rejects := None;
     getDoc_rejects := None;
     addDoc_rejects := None;
     deleteDoc_rejects := fun _ => None;
     random_serial := 1 # 2;
     random_prize := prizeRandom;
     autoId := "order-2";
     serverTimestamp := 1738400000;
     confirm_first := true;
     confirm_second := true |}.

Definition sampleForm (day : string) (hours : Z) : FormData :=
  {| phone := "0912345678"; date := day; branch := "大林店"; room := "南";
     duration := hours |}.

(** An order registered earlier for 0912345678 on 2025-02-01. *)
Definition earlierOrder : Order :=
  {| form := sampleForm "2025-02-01" 4;
     userId := "demo-user-1";
     isGrandEligible := true;
     grandDrawSerial := Some "123456";
     scratchPrizeId := "ext_1h";
     scratchPrizeName := "1小時續時券";
     scratchPrizeType := type_win;
     prizeSent := false;
     timestamp := Some (mkTimestamp 1738300000);
     note := None |}.

(** A store holding that order, with [free_4h] counted [n] times. *)
Definition sampleStore (n : Z) : Store :=
  {| orders := {["order-1" := earlierOrder]};
     prize_counts := Some {["free_4h" := n]} |}.

(** Three saved orders: a losing four-hour visit, a winning one-hour
    visit saved last, and a winning four-hour visit in between. *)
Definition savedOrder (hours : Z) (prize : Prize Q) (at_seconds : Z) : Order :=
  {| form := sampleForm "2025-02-01" hours;
     userId := "demo-user-1";
     isGrandEligible := 4 <=? hours;
     grandDrawSerial := if 4 <=? hours then Some "123456" else None;
     scratchPrizeId := id prize;
     scratchPrizeName := name prize;
     scratchPrizeType := type prize;
     prizeSent := false;
     timestamp := Some (mkTimestamp at_seconds);
     note := None |}.

Definition adminStore : Store :=
  {| orders := {[ "a" := savedOrder 4 none_1 100;
                  "b" := savedOrder 1 ext_1h 300;
                  "c" := savedOrder 4 disc_50 200 ]};
     prize_counts := None |}.

(** A 60 by 40 overlay scratched with the disc rasteriser: the first drag
    clears 1264 of 2400 pixels, the second brings it to 2032 (more than
    75%) and reveals; the third drag and the release find it revealed. *)
Definition sampleDrag : list Event :=
  [PointerDown; PointerMove 20 20; PointerMove 40 20; PointerMove 30 20; PointerUp].

(** ** Admin edits: [togglePrizeSent] and [updateNote] *)

(** [{ prizeSent: v }] and [{ note: n }] merged into a document. *)
Definition setPrizeSent (v : bool) (o : Order) : Order :=
  {| form := form o; userId := userId o;
     isGrandEligible := isGrandEligible o; grandDrawSerial := grandDrawSerial o;
     scratchPrizeId := scratchPrizeId o; scratchPrizeName := scratchPrizeName o;
     scratchPrizeType := scratchPrizeType o;
     prizeSent := v; timestamp := timestamp o; note := note o |}.

Definition setNote (n : string) (o : Order) : Order :=
  {| form := form o; userId := userId o;
     isGrandEligible := isGrandEligible o; grandDrawSerial := grandDrawSerial o;
     scratchPrizeId := scratchPrizeId o; scratchPrizeName := scratchPrizeName o;
     scratchPrizeType := scratchPrizeType o;
     prizeSent := prizeSent o; timestamp := timestamp o; note := Some n |}.

(** The ways an admin edit ends; only [MutationDone] replaces [adminData]. *)
Inductive MutationOutcome :=
| MutationNotReady                                 (* alert: connection not ready *)
| MutationDone (adminData : list (string * Order)) (* setAdminData(prev => prev.map(...)) *)
| MutationPermissionError                          (* alert: insufficient permissions *)
| MutationFailed.                                  (* alert: update failed *)

Section AdminEdits.
Variable env : Env.
(** Which [updateDoc] calls reject, by document id. *)
Variable updateDoc_rejects : string -> option FirestoreError.

(** [updateDoc(doc(..., 'orders', docId), fields)]: Firestore merges the
    fields into an existing document and rejects when there is none. *)
Definition updateDoc (docId : string) (fields : Order -> Order) : M unit :=
  fun s =>
    match updateDoc_rejects docId with
    | Some e => (inl e, s)
    | None =>
        match orders s !! docId with
        | Some o => (inr tt, mkStore (<[docId := fields o]> (orders s)) (prize_counts s))
        | None => (inl other_error, s)
        end
    end.

(** [prev.map(item => item.id === docId ? { ...item, ...fields } : item)] *)
Definition mapRows (docId : string) (fields : Order -> Order)
           (adminData : list (string * Order)) : list (string * Order) :=
  List.map (fun item => if String.eqb (fst item) docId
                        then (fst item, fields (snd item)) else item)
           adminData.

(** The body shared by the two handlers: the readiness check, the awaited
    [updateDoc], the refresh of the local rows, and the [catch]. *)
Definition editOrder (docId : string) (fields : Order -> Order)
           (adminData : list (string * Order)) : M MutationOutcome :=
  try_catch
    (if negb (getFirestoreFn env "updateDoc" && getFirestoreFn env "doc" && db env)
     then ret MutationNotReady
     else
       _ ← updateDoc docId fields;
       ret (MutationDone (mapRows docId fields adminData)))
    (fun err =>
       match err with
       | permission_denied => ret MutationPermissionError
       | other_error => ret MutationFailed
       end).

Definition togglePrizeSent (docId : string) (currentStatus : bool)
           (adminData : list (string * Order)) : M MutationOutcome :=
  editOrder docId (setPrizeSent (negb currentStatus)) adminData.

(** [newNote] is the string the note editor saves; on a string
    [newNote || ''] is the string itself. *)
Definition updateNote (docId : string) (newNote : string)
           (adminData : list (string * Order)) : M MutationOutcome :=
  editOrder docId (setNote newNote) adminData.
End AdminEdits.

(** [adminData] after an edit: replaced on success, kept otherwise. *)
Definition adminDataAfter (before : list (string * Order))
           (r : (FirestoreError + MutationOutcome) * Store) : list (string * Order) :=
  match fst r with
  | inr (MutationDone rows) => rows
  | _ => before
  end.

(** The filter [fetchAdminData] applies for a tab. *)
Definition listedOn (tab : string) (o : Order) : bool :=
  if String.eqb tab "grand" then isGrandEligible o
  else bool_decide (scratchPrizeType o = type_win).

(** The local rows agree with the store: every row is a stored document. *)
Definition mirrors (adminData : list (string * Order)) (s : Store) : Prop :=
  forall docId o, In (docId, o) adminData -> orders s !! docId = Some o.

(** ** Invariants of the [orders] collection *)

(** At most one order for a phone number and a date. *)
Definition uniquePhoneDate (s : Store) : Prop :=
  forall i j o1 o2,
    orders s !! i = Some o1 -> orders s !! j = Some o2 ->
    phone (form o1) = phone (form o2) -> date (form o1) = date (form o2) ->
    i = j.

(** What [handleSubmit] guarantees of an order it saves. *)
Definition wellFormedOrder (o : Order) : Prop :=
  phoneRegex_test (phone (form o)) = true /\
  isGrandEligible o = (4 <=? duration (form o)) /\
  (isGrandEligible o = true <-> grandDrawSerial o <> None) /\
  (forall serial, grandDrawSerial o = Some serial -> sixDigits_test serial = true) /\
  (exists p, In p PRIZES /\ scratchPrizeId o = id p
             /\ scratchPrizeName o = name p /\ scratchPrizeType o = type p).

(** Two versions of a document that differ at most in [prizeSent] and
    [note], the fields an admin edits. *)
Definition registeredAlike (a b : Order) : Prop :=
  form a = form b /\ isGrandEligible a = isGrandEligible b /\
  grandDrawSerial a = grandDrawSerial b /\ scratchPrizeId a = scratchPrizeId b /\
  scratchPrizeName a = scratchPrizeName b /\ scratchPrizeType a = scratchPrizeType b.

(** ** Running sums in order *)

(** Each element of [sums] is [<=] the next one. *)
Fixpoint nondecreasing {num : Type} (leb : num -> num -> bool) (sums : list num) : bool :=
  match sums with
  | a :: rest =>
      match rest with
      | b :: _ => leb a b && nondecreasing leb rest
      | [] => true
      end
  | [] => true
  end.

(** ** Strings of digits *)

(** The digit a character stands for. *)
Definition digitValue (c : ascii) : Z := Z.of_nat (nat_of_ascii c) - 48.

(** [parseInt(s)] on a string of decimal digits, read left to right from
    the value [v] accumulated so far. *)
Fixpoint decimalFrom (v : Z) (s : string) : Z :=
  match s with
  | EmptyString => v
  | String c rest => decimalFrom (v * 10 + digitValue c) rest
  end.

Definition decimalValue (s : string) : Z := decimalFrom 0 s.

(** [s.padStart(targetLength, c)] with a one-character filler. *)
Definition padStart (targetLength : nat) (c : ascii) (s : string) : string :=
  String.append
    (String.string_of_list_ascii (List.repeat c (targetLength - String.length s)))
    s.

(** [getTodayDateString], given what [getFullYear()], [getMonth()] and
    [getDate()] return for the current date. *)
Definition getTodayDateString (fullYear month day : Z) : string :=
  String.append (toString fullYear)
    (String "-" (String.append (padStart 2 "0" (toString (month + 1)))
       (String "-" (padStart 2 "0" (toString day))))).

(** [/^\d{4}-\d{2}-\d{2}$/.test(s)], the format of a date input's value. *)
Definition dateFormat_test (s : string) : bool :=
  match s with
  | String y1 (String y2 (String y3 (String y4 (String "-"
      (String m1 (String m2 (String "-" (String d1 (String d2 EmptyString))))))))) =>
      isDigit y1 && isDigit y2 && isDigit y3 && isDigit y4
      && isDigit m1 && isDigit m2 && isDigit d1 && isDigit d2
  | _ => false
  end.

(** Year, month and day read back from the three groups of digits. *)
Definition dateParts (s : string) : Z * Z * Z :=
  (decimalValue (String.substring 0 4 s),
   decimalValue (String.substring 5 2 s),
   decimalValue (String.substring 8 2 s)).

(** ** The registration form *)

Definition BRANCHES : list string :=
  ["大林店"; "八德店"; "南崁店"; "草漯店"; "楊梅店"; "中和中正店"].

Definition BRANCH_ROOMS : list (string * list string) :=
  [ ("大林店", ["南"; "西"; "北"; "中"; "發"; "白"]);
    ("八德店", ["梅"; "蘭"; "竹"; "菊"; "春"; "夏"; "秋"; "冬"; "轉運"; "改運"]);
    ("南崁店", ["1條"; "2條"; "3條"; "4條"; "5條"; "6條"; "7條"]);
    ("草漯店", ["1筒"; "2筒"; "3筒"; "4筒"; "5筒"; "6筒"]);
    ("楊梅店", ["康"; "財"; "福"; "祿"; "壽"; "喜"; "順"; "安"; "旺"]);
    ("中和中正店", ["壹"; "貳"; "參"; "肆"; "伍"; "陸"; "柒"; "捌"; "玖"; "拾"]) ].

Definition DURATIONS : list (string * Z) :=
  [ ("1小時", 1); ("2小時", 2); ("3小時", 3); ("4小時", 4);
    ("5小時", 5); ("6小時", 6); ("8小時", 8); ("12小時", 12) ].

(** [BRANCH_ROOMS[branch] || []], on the keys the object defines. *)
Fixpoint roomsIn (table : list (string * list string)) (b : string) : list string :=
  match table with
  | [] => []
  | (key, rooms) :: rest => if String.eqb key b then rooms else roomsIn rest b
  end.

Definition roomsOf (b : string) : list string := roomsIn BRANCH_ROOMS b.

(** [list[0] || '']; on the non-empty [BRANCHES] it is [BRANCHES[0]]. *)
Definition firstOrEmpty (rooms : list string) : string :=
  match rooms with
  | r :: _ => r
  | [] => ""
  end.

(** The initial [formData], with [getTodayDateString()] passed in. *)
Definition initialFormData (today : string) : FormData :=
  {| phone := "";
     date := today;
     branch := firstOrEmpty BRANCHES;
     room := firstOrEmpty (roomsOf (firstOrEmpty BRANCHES));
     duration := 1 |}.

(** The [onChange] handlers of the five controls, with [e.target.value]. *)
Inductive FormEvent :=
| ChangePhone (value : string)
| ChangeDate (value : string)
| ChangeBranch (value : string)
| ChangeRoom (value : string)
| ChangeDuration (value : string).

Definition onChange (e : FormEvent) (formData : FormData) : FormData :=
  match e with
  | ChangePhone v =>
      mkFormData v (date formData) (branch formData) (room formData) (duration formData)
  | ChangeDate v =>
      mkFormData (phone formData) v (branch formData) (room formData) (duration formData)
  | ChangeBranch newBranch =>
      let newRooms := roomsOf newBranch in
      mkFormData (phone formData) (date formData) newBranch (firstOrEmpty newRooms)
                 (duration formData)
  | ChangeRoom v =>
      mkFormData (phone formData) (date formData) (branch formData) v (duration formData)
  | ChangeDuration v =>
      mkFormData (phone formData) (date formData) (branch formData) (room formData)
                 (decimalValue v)
  end.

(** The values a control can send: a select sends the value of one of the
    options rendered for the current [formData]; the text and date inputs
    send anything. *)
Definition offered (formData : FormData) (e : FormEvent) : Prop :=
  match e with
  | ChangePhone _ | ChangeDate _ => True
  | ChangeBranch v => In v BRANCHES
  | ChangeRoom v => In v (roomsOf (branch formData))
  | ChangeDuration v => exists d, In d DURATIONS /\ v = toString (snd d)
  end.

(** A sequence of changes, each one offered by the form it is made on. *)
Fixpoint offeredAll (events : list FormEvent) (formData : FormData) : Prop :=
  match events with
  | [] => True
  | e :: rest => offered formData e /\ offeredAll rest (onChange e formData)
  end.

Definition fillForm (events : list FormEvent) (formData : FormData) : FormData :=
  List.fold_left (fun f e => onChange e f) events formData.

(** The form holds a branch of the list, a room of that branch and one of
    the listed durations. *)
Definition formInRange (formData : FormData) : Prop :=
  In (branch formData) BRANCHES /\
  In (room formData) (roomsOf (branch formData)) /\
  In (duration formData) (List.map snd DURATIONS).

(** * Properties *)

(** ** The weighted selection *)

Section WeightedSelectionFacts.
Context {num : Type}.
Variable zero : num.
Variable add : num -> num -> num.
Variable leb : num -> num -> bool.

(** No running sum reaches [rand]: the initial [selectedPrize] survives. *)
Lemma selectFrom_no_match rand ps c sel :
  forallb (fun s => negb (leb rand s)) (cumulativeSums add ps c) = true ->
  selectFrom add leb rand ps c sel = sel.
Proof.
  revert c. induction ps as [|p rest IH]; intros c H; simpl in *; [reflexivity|].
  apply andb_prop in H as [H1 H2].
  apply negb_true_iff in H1. rewrite H1. now apply IH.
Qed.

(** Otherwise the loop stops at the first entry whose running sum does. *)
Lemma selectFrom_first_match rand pre p post c sel :
  forallb (fun s => negb (leb rand s)) (cumulativeSums add pre c) = true ->
  leb rand (fold_left add (List.map prob (pre ++ [p])) c) = true ->
  selectFrom add leb rand (pre ++ p :: post) c sel = p.
Proof.
  revert c. induction pre as [|q pre IH]; intros c Hpre Hp; simpl in *.
  - now rewrite Hp.
  - apply andb_prop in Hpre as [H1 H2].
    apply negb_true_iff in H1. rewrite H1. now apply IH.
Qed.
End WeightedSelectionFacts.

Lemma Qleb_true x y : Qleb x y = true <-> (x <= y)%Q.
Proof. apply Qle_bool_iff. Qed.

Lemma Qleb_false x y : Qleb x y = false <-> (y < x)%Q.
Proof.
  unfold Qleb. split; intros H.
  - apply Qnot_le_lt. intros Hle. apply Qle_bool_iff in Hle. congruence.
  - apply not_true_is_false. intros Hle. apply Qle_bool_iff in Hle.
    apply (Qlt_not_le _ _ H Hle).
Qed.

Lemma Qltb_true x y : Qltb x y = true <-> (x < y)%Q.
Proof. unfold Qltb. rewrite negb_true_iff. apply Qleb_false. Qed.

(** Case split on the next comparison of the loop. *)
Ltac split_Qleb :=
  match goal with
  | |- context [Qleb ?a ?b] =>
      let E := fresh "E" in
      destruct (Qleb a b) eqn:E;
      [apply Qleb_true in E | apply Qleb_false in E]
  end.

(** The running sums of [PRIZES]: 0.38, 0.76, 0.86, 0.96, 0.994, 0.999, 1. *)
Lemma PRIZES_cumulativeSums :
  Forall2 Qeq (cumulativeSums Qplus PRIZES 0%Q)
    [38 # 100; 76 # 100; 86 # 100; 96 # 100; 994 # 1000; 999 # 1000; 1]%Q.
Proof. repeat constructor. Qed.

(** In binary64 the running sums come out as the doubles nearest to the
    same decimals, and the last one is exactly 1. *)
Lemma Binary64_cumulativeSums :
  cumulativeSums PrimFloat.add Binary64.PRIZES PrimFloat.zero
  = Binary64.expectedSums.
Proof. vm_compute. reflexivity. Qed.

(** In binary64 too, a value above every running sum keeps [PRIZES[0]];
    since the last sum is 1, no [Math.random()] value is that large. *)
Lemma Binary64_selectPrize_default (rand : PrimFloat.float) :
  forallb (fun s => negb (PrimFloat.leb rand s)) Binary64.expectedSums = true ->
  Binary64.selectPrize rand = Binary64.PRIZES_0.
Proof.
  intros H. apply selectFrom_no_match.
  change (forallb (fun s => negb (PrimFloat.leb rand s))
                  (cumulativeSums PrimFloat.add Binary64.PRIZES PrimFloat.zero) = true).
  now rewrite Binary64_cumulativeSums.
Qed.

(** C1, as stated, fails at the boundary [rand = 0.38]: the loop tests
    [rand <= cumulative], so a value equal to a running sum selects the
    entry that sum belongs to ([none_1]), while the half-open reading of the
    specification gives the next entry ([none_2]).  The same happens with
    the binary64 arithmetic of the browser. *)
Lemma selectPrize_boundary_counterexample :
  (0 <= 38 # 100)%Q /\ (38 # 100 < 1)%Q /\
  selectPrize (38 # 100) = none_1 /\
  selectPrize_halfOpen (38 # 100) = none_2 /\
  selectPrize (38 # 100) <> selectPrize_halfOpen (38 # 100) /\
  id (Binary64.selectPrize Binary64.firstBoundary) = "none_1" /\
  id (Binary64.selectPrize_halfOpen Binary64.firstBoundary) = "none_2".
Proof.
  split; [discriminate|]. split; [reflexivity|].
  split; [reflexivity|]. split; [reflexivity|].
  split; [discriminate|]. split; vm_compute; reflexivity.
Qed.

(** The same loop read in exact arithmetic, where the running sums are the
    decimals themselves: the intervals are again open on the left and
    closed on the right.  The rounded sums differ from the decimals in the
    last bits, so at such values the two readings can select neighbouring
    entries; the statement about the code is [Binary64_selectPrize_intervals]. *)
Theorem selectPrize_intervals (rand : Q) :
  ((rand <= 38 # 100)%Q -> selectPrize rand = none_1) /\
  ((38 # 100 < rand)%Q -> (rand <= 76 # 100)%Q -> selectPrize rand = none_2) /\
  ((76 # 100 < rand)%Q -> (rand <= 86 # 100)%Q -> selectPrize rand = ext_1h) /\
  ((86 # 100 < rand)%Q -> (rand <= 96 # 100)%Q -> selectPrize rand = disc_50) /\
  ((96 # 100 < rand)%Q -> (rand <= 994 # 1000)%Q -> selectPrize rand = ext_2h) /\
  ((994 # 1000 < rand)%Q -> (rand <= 999 # 1000)%Q -> selectPrize rand = free_2h) /\
  ((999 # 1000 < rand)%Q -> (rand <= 1)%Q -> selectPrize rand = free_4h) /\
  ((1 < rand)%Q -> selectPrize rand = PRIZES_0).
Proof.
  unfold selectPrize, weightedSelect, PRIZES, PRIZES_0. simpl.
  repeat split_Qleb; repeat split; intros; try reflexivity; exfalso; lra.
Qed.

Lemma selectPrize_intervals_witness :
  selectPrize (1 # 2) = none_2 /\ selectPrize (38 # 100) = none_1
  /\ selectPrize (9995 # 10000) = free_4h /\ selectPrize (3 # 2) = PRIZES_0.
Proof.
  destruct (selectPrize_intervals (1 # 2)) as (_ & H2 & _).
  destruct (selectPrize_intervals (38 # 100)) as (H1 & _).
  destruct (selectPrize_intervals (9995 # 10000)) as (_ & _ & _ & _ & _ & _ & H7 & _).
  destruct (selectPrize_intervals (3 # 2)) as (_ & _ & _ & _ & _ & _ & _ & H8).
  split; [apply H2; reflexivity || discriminate|].
  split; [apply H1; discriminate|].
  split; [apply H7; reflexivity || discriminate|].
  apply H8; reflexivity.
Defined.

(** *** The order of binary64 numbers *)

(** Case split on the comparisons of exponents and mantissas. *)
Ltac split_compare :=
  repeat match goal with
         | H : context [Z.compare ?x ?y] |- _ => destruct (Z.compare_spec x y)
         | |- context [Z.compare ?x ?y] => destruct (Z.compare_spec x y)
         | H : context [Pos.compare_cont Eq ?x ?y] |- _ =>
             change (Pos.compare_cont Eq x y) with (Pos.compare x y) in *;
             destruct (Pos.compare_spec x y)
         | |- context [Pos.compare_cont Eq ?x ?y] =>
             change (Pos.compare_cont Eq x y) with (Pos.compare x y) in *;
             destruct (Pos.compare_spec x y)
         end.

Lemma SFleb_trans a b c :
  SpecFloat.SFleb a b = true -> SpecFloat.SFleb b c = true ->
  SpecFloat.SFleb a c = true.
Proof.
  unfold SpecFloat.SFleb, SpecFloat.SFcompare.
  destruct a as [sa|sa| |sa ma ea], b as [sb|sb| |sb mb eb], c as [sc|sc| |sc mc ec];
    try destruct sa; try destruct sb; try destruct sc; cbn;
    try discriminate; try reflexivity;
    intros H1 H2; split_compare; subst; cbn in *;
    try discriminate; try reflexivity; try lia.
Qed.

Lemma SFltb_SFleb_false a b :
  SpecFloat.SFltb a b = true -> SpecFloat.SFleb b a = false.
Proof.
  unfold SpecFloat.SFltb, SpecFloat.SFleb, SpecFloat.SFcompare.
  destruct a as [sa|sa| |sa ma ea], b as [sb|sb| |sb mb eb];
    try destruct sa; try destruct sb; cbn;
    try discriminate; try reflexivity;
    intros H1; split_compare; subst; cbn in *;
    try discriminate; try reflexivity; try lia.
Qed.

Lemma SFltb_SFleb a b :
  SpecFloat.SFltb a b = true -> SpecFloat.SFleb a b = true.
Proof.
  unfold SpecFloat.SFltb, SpecFloat.SFleb.
  destruct (SpecFloat.SFcompare a b) as [[]|]; (discriminate || reflexivity).
Qed.

(** [<=] on doubles is transitive, [x < y] excludes [y <= x] and gives
    [x <= y]. *)
Lemma Binary64_leb_trans x y z :
  PrimFloat.leb x y = true -> PrimFloat.leb y z = true -> PrimFloat.leb x z = true.
Proof. rewrite !FloatAxioms.leb_spec. apply SFleb_trans. Qed.

Lemma Binary64_ltb_not_leb x y :
  PrimFloat.ltb x y = true -> PrimFloat.leb y x = false.
Proof. rewrite FloatAxioms.leb_spec, FloatAxioms.ltb_spec. apply SFltb_SFleb_false. Qed.

Lemma Binary64_ltb_leb x y :
  PrimFloat.ltb x y = true -> PrimFloat.leb x y = true.
Proof. rewrite FloatAxioms.leb_spec, FloatAxioms.ltb_spec. apply SFltb_SFleb. Qed.

(** A value above [c'] is not below any [c <= c']. *)
Lemma Binary64_above c c' rand :
  PrimFloat.leb c c' = true -> PrimFloat.ltb c' rand = true ->
  PrimFloat.leb rand c = false.
Proof.
  intros Hcc Hlt. destruct (PrimFloat.leb rand c) eqn:E; [|reflexivity].
  pose proof (Binary64_leb_trans rand c c' E Hcc) as H.
  now rewrite (Binary64_ltb_not_leb c' rand Hlt) in H.
Qed.

(** The comparisons the loop makes before reaching the running sum [k],
    for a value above that sum. *)
Ltac above_running_sum k H :=
  let rand := match type of H with PrimFloat.ltb _ ?r = true => r end in
  try pose proof (Binary64_above (Binary64.runningSum 0) (Binary64.runningSum k) rand eq_refl H);
  try pose proof (Binary64_above (Binary64.runningSum 1) (Binary64.runningSum k) rand eq_refl H);
  try pose proof (Binary64_above (Binary64.runningSum 2) (Binary64.runningSum k) rand eq_refl H);
  try pose proof (Binary64_above (Binary64.runningSum 3) (Binary64.runningSum k) rand eq_refl H);
  try pose proof (Binary64_above (Binary64.runningSum 4) (Binary64.runningSum k) rand eq_refl H);
  try pose proof (Binary64_above (Binary64.runningSum 5) (Binary64.runningSum k) rand eq_refl H);
  try pose proof (Binary64_above (Binary64.runningSum 6) (Binary64.runningSum k) rand eq_refl H).

(** Run the loop on the comparisons known. *)
Ltac run_selection :=
  vm_compute in *;
  repeat match goal with
         | H : PrimFloat.leb _ _ = _ |- _ => rewrite H; clear H
         end;
  reflexivity.

(** The running sums are the expected doubles, increasing, the last being 1. *)
Lemma Binary64_runningSums :
  List.map Binary64.runningSum [0; 1; 2; 3; 4; 5; 6]%nat = Binary64.expectedSums
  /\ Binary64.runningSum 6 = PrimFloat.one.
Proof. split; vm_compute; reflexivity. Qed.

(** The entries of the table, by index. *)
Lemma Binary64_entries :
  List.map (fun i => id (Binary64.entry i)) [0; 1; 2; 3; 4; 5; 6]%nat
  = ["none_1"; "none_2"; "ext_1h"; "disc_50"; "ext_2h"; "free_2h"; "free_4h"]
  /\ Binary64.entry 0 = Binary64.PRIZES_0.
Proof. split; reflexivity. Qed.

(** C1 (amended): the selection loop of [determinePrize] on the fixed
    table, with the binary64 arithmetic of the code.  The running sums are
    the doubles 0.38, 0.76000000000000001, 0.85999999999999999,
    0.95999999999999996, 0.99399999999999999, 0.999 and 1.  The loop returns
    the entry whose interval between two consecutive running sums, open on
    the left and closed on the right, holds [rand] (the first entry takes
    everything up to 0.38): a value equal to a running sum selects the
    entry that sum belongs to, not the next one.  The last running sum is
    exactly 1, so every value below 1 falls in one of the intervals; a
    value above every running sum leaves the initial
    [selectedPrize = PRIZES[0]], the first entry, in place.  The function
    is total: it never fails. *)
Theorem Binary64_selectPrize_intervals (rand : PrimFloat.float) :
  (PrimFloat.leb rand (Binary64.runningSum 0) = true ->
   Binary64.selectPrize rand = Binary64.entry 0) /\
  (PrimFloat.ltb (Binary64.runningSum 0) rand = true ->
   PrimFloat.leb rand (Binary64.runningSum 1) = true ->
   Binary64.selectPrize rand = Binary64.entry 1) /\
  (PrimFloat.ltb (Binary64.runningSum 1) rand = true ->
   PrimFloat.leb rand (Binary64.runningSum 2) = true ->
   Binary64.selectPrize rand = Binary64.entry 2) /\
  (PrimFloat.ltb (Binary64.runningSum 2) rand = true ->
   PrimFloat.leb rand (Binary64.runningSum 3) = true ->
   Binary64.selectPrize rand = Binary64.entry 3) /\
  (PrimFloat.ltb (Binary64.runningSum 3) rand = true ->
   PrimFloat.leb rand (Binary64.runningSum 4) = true ->
   Binary64.selectPrize rand = Binary64.entry 4) /\
  (PrimFloat.ltb (Binary64.runningSum 4) rand = true ->
   PrimFloat.leb rand (Binary64.runningSum 5) = true ->
   Binary64.selectPrize rand = Binary64.entry 5) /\
  (PrimFloat.ltb (Binary64.runningSum 5) rand = true ->
   PrimFloat.ltb rand PrimFloat.one = true ->
   Binary64.selectPrize rand = Binary64.entry 6) /\
  (PrimFloat.ltb (Binary64.runningSum 5) rand = true ->
   PrimFloat.leb rand (Binary64.runningSum 6) = true ->
   Binary64.selectPrize rand = Binary64.entry 6) /\
  (PrimFloat.ltb (Binary64.runningSum 6) rand = true ->
   Binary64.selectPrize rand = Binary64.PRIZES_0).
Proof.
  repeat split.
  - intros Hhi. run_selection.
  - intros Hlo Hhi. above_running_sum 0%nat Hlo. clear Hlo. run_selection.
  - intros Hlo Hhi. above_running_sum 1%nat Hlo. clear Hlo. run_selection.
  - intros Hlo Hhi. above_running_sum 2%nat Hlo. clear Hlo. run_selection.
  - intros Hlo Hhi. above_running_sum 3%nat Hlo. clear Hlo. run_selection.
  - intros Hlo Hhi. above_running_sum 4%nat Hlo. clear Hlo. run_selection.
  - intros Hlo Hone. above_running_sum 5%nat Hlo. clear Hlo.
    apply Binary64_ltb_leb in Hone. run_selection.
  - intros Hlo Hhi. above_running_sum 5%nat Hlo. clear Hlo. run_selection.
  - intros Hlo. above_running_sum 6%nat Hlo. clear Hlo. run_selection.
Qed.

Lemma Binary64_selectPrize_intervals_witness :
  Binary64.selectPrize Binary64.firstBoundary = Binary64.entry 0
  /\ Binary64.selectPrize (Binary64.runningSum 1) = Binary64.entry 1
  /\ id (Binary64.entry 0) = "none_1" /\ id (Binary64.entry 1) = "none_2".
Proof.
  destruct (Binary64_selectPrize_intervals Binary64.firstBoundary) as (H0 & _).
  destruct (Binary64_selectPrize_intervals (Binary64.runningSum 1)) as (_ & H1 & _).
  split; [apply H0; reflexivity|].
  split; [apply H1; reflexivity|].
  split; reflexivity.
Defined.

(** ** The serial of the grand draw *)

Lemma isDigit_digitChar (d : Z) : 0 <= d <= 9 -> isDigit (digitChar d) = true.
Proof.
  intros H.
  assert (d = 0 \/ d = 1 \/ d = 2 \/ d = 3 \/ d = 4 \/ d = 5 \/ d = 6
          \/ d = 7 \/ d = 8 \/ d = 9) as Hd by lia.
  repeat (destruct Hd as [-> | Hd]; [reflexivity|]). now subst.
Qed.

Lemma isDigit_mod10 (n : Z) : isDigit (digitChar (n mod 10)) = true.
Proof. apply isDigit_digitChar. pose proof (Z.mod_pos_bound n 10). lia. Qed.

(** A number of six decimal digits prints as six digit characters. *)
Lemma toString_sixDigits (n : Z) :
  100000 <= n <= 999999 -> sixDigits_test (toString n) = true.
Proof.
  intros Hn. unfold toString.
  destruct (Z.ltb_spec n 0) as [?|_]; [lia|].
  assert (16 <= Z.log2 n) as Hlog.
  { change 16 with (Z.log2 65536). apply Z.log2_le_mono. lia. }
  destruct (Z.to_nat (Z.log2 n)) as [|[|[|[|[|k]]]]] eqn:Hk; try lia.
  assert (n / 10 / 10 / 10 / 10 / 10 / 10 = 0) as H6.
  { replace (n / 10 / 10 / 10 / 10 / 10 / 10) with (n / 1000000)
      by (rewrite !Z.div_div by lia; reflexivity).
    apply Z.div_small. lia. }
  assert (n / 10 / 10 / 10 / 10 / 10 <> 0) as H5.
  { replace (n / 10 / 10 / 10 / 10 / 10) with (n / 100000)
      by (rewrite !Z.div_div by lia; reflexivity).
    pose proof (Z.div_str_pos n 100000 ltac:(lia)). lia. }
  assert (n / 10 / 10 / 10 / 10 <> 0) as H4.
  { intros E. rewrite E in H5. now apply H5. }
  assert (n / 10 / 10 / 10 <> 0) as H3.
  { intros E. rewrite E in H4. now apply H4. }
  assert (n / 10 / 10 <> 0) as H2.
  { intros E. rewrite E in H3. now apply H3. }
  assert (n / 10 <> 0) as H1.
  { intros E. rewrite E in H2. now apply H2. }
  cbn [digitsOf].
  repeat match goal with
         | |- context [?a =? 0] =>
             destruct (Z.eqb_spec a 0) as [?|_]; [contradiction || congruence|]
         end.
  rewrite (proj2 (Z.eqb_eq _ 0) H6).
  unfold sixDigits_test. cbn [String.length allDigits Nat.eqb].
  now rewrite !isDigit_mod10.
Qed.

(** [Math.floor(100000 + r * 900000)] for [r] in [[0, 1)]. *)
Lemma serialNumber_range (random : Q) :
  (0 <= random)%Q -> (random < 1)%Q ->
  100000 <= Qfloor (100000 + random * 900000) <= 999999.
Proof.
  intros H0 H1. split.
  - change 100000 with (Qfloor (inject_Z 100000)) at 1.
    apply Qfloor_resp_le. change (inject_Z 100000) with 100000%Q. nra.
  - assert (Qfloor (100000 + random * 900000) < 1000000); [|lia].
    rewrite Zlt_Qlt.
    apply Qle_lt_trans with (100000 + random * 900000)%Q; [apply Qfloor_le|].
    change (inject_Z 1000000) with 1000000%Q. nra.
Qed.

Lemma generateSerial_sixDigits (random : Q) :
  (0 <= random)%Q -> (random < 1)%Q ->
  exists n, 100000 <= n <= 999999 /\ generateSerial random = toString n
            /\ sixDigits_test (generateSerial random) = true.
Proof.
  intros H0 H1. exists (Qfloor (100000 + random * 900000)).
  pose proof (serialNumber_range random H0 H1) as Hr.
  split; [exact Hr|]. split; [reflexivity|].
  now apply toString_sixDigits.
Qed.

(** ** [determinePrize] and the inventory limit *)

Ltac unfold_M :=
  unfold try_catch, ret, throw, mbind, M_bind, mret, M_ret in *.

(** [determinePrize] never rejects and never writes: it ends with a prize
    and the store it started from. *)
Lemma checkLimit_returns env table first sel s :
  exists p, checkLimit env table first sel s = (inr p, s).
Proof.
  unfold checkLimit, getDoc_prize_counts. unfold_M.
  destruct (negb (limit sel =? -1)); [|eauto].
  destruct (negb _); [eauto|].
  destruct (getDoc_rejects env); [eauto|].
  destruct (limit sel <=? _); eauto.
Qed.

Lemma determinePrize_returns env s :
  exists p, determinePrize env s = (inr p, s).
Proof. apply checkLimit_returns. Qed.

Lemma fallbackPrize_PRIZES : fallbackPrize PRIZES PRIZES_0 = disc_50.
Proof. reflexivity. Qed.

Lemma fallbackPrize_found table first :
  (exists p, In p table /\ id p = "disc_50") ->
  id (fallbackPrize table first) = "disc_50".
Proof.
  intros (p & Hin & Hid). unfold fallbackPrize.
  destruct (List.find _ table) as [q|] eqn:E.
  - apply List.find_some in E as [_ E]. now apply String.eqb_eq in E.
  - apply (List.find_none _ _ E) in Hin. rewrite Hid in Hin. discriminate.
Qed.

Lemma fallbackPrize_missing table first :
  (forall p, In p table -> id p <> "disc_50") ->
  fallbackPrize table first = first.
Proof.
  intros H. unfold fallbackPrize.
  destruct (List.find _ table) as [q|] eqn:E; [|reflexivity].
  apply List.find_some in E as [Hin E]. apply String.eqb_eq in E.
  now apply H in Hin.
Qed.

(** C2: with the limit check able to read the count (the Firestore
    functions are loaded and the read does not reject), a selected prize
    with a finite limit whose stored count has reached the limit is replaced
    by the fallback [PRIZES.find(p => p.id === 'disc_50') || PRIZES[0]]: the
    entry with id disc_50 when the table has one, the first entry
    otherwise; on [PRIZES] that is [disc_50], which is never the exhausted
    prize itself.  Below the limit the selected prize stands. *)
Theorem determinePrize_inventory_guard
        (env : Env) (table : list (Prize Q)) (first : Prize Q) (s : Store) :
  let selectedPrize := weightedSelect 0%Q Qplus Qleb first table (random_prize env) in
  let count := currentCount (prize_counts s) (id selectedPrize) in
  limit selectedPrize <> -1 ->
  getFirestoreFn env "doc" = true ->
  getFirestoreFn env "getDoc" = true ->
  db env = true ->
  getDoc_rejects env = None ->
  (limit selectedPrize <= count ->
   determinePrizeOn env table first s = (inr (fallbackPrize table first), s)) /\
  (count < limit selectedPrize ->
   determinePrizeOn env table first s = (inr selectedPrize, s)) /\
  ((exists p, In p table /\ id p = "disc_50") ->
   id (fallbackPrize table first) = "disc_50") /\
  ((forall p, In p table -> id p <> "disc_50") ->
   fallbackPrize table first = first) /\
  (table = PRIZES -> first = PRIZES_0 ->
   fallbackPrize table first = disc_50 /\ disc_50 <> selectedPrize).
Proof.
  intros sel count Hlim Hdoc HgetDoc Hdb Hread.
  assert (forall b : bool,
             (limit sel <=? count) = b ->
             determinePrizeOn env table first s
             = (inr (if b then fallbackPrize table first else sel), s)) as Hrun.
  { intros b Hb. unfold determinePrizeOn, checkLimit, getDoc_prize_counts.
    fold sel. unfold_M.
    destruct (Z.eqb_spec (limit sel) (-1)) as [?|_]; [contradiction|].
    rewrite Hdoc, HgetDoc, Hdb, Hread. cbn.
    unfold count in Hb. rewrite Hb. now destruct b. }
  split; [|split; [|split; [|split]]].
  - intros H. apply (Hrun true). now apply Z.leb_le.
  - intros H. apply (Hrun false). now apply Z.leb_gt.
  - apply fallbackPrize_found.
  - apply fallbackPrize_missing.
  - intros -> ->. split; [reflexivity|].
    intros E. apply Hlim. subst sel. now rewrite <- E.
Qed.

Lemma determinePrize_inventory_guard_witness :
  determinePrize (readyEnv (1 # 2) (9995 # 10000)) (sampleStore 5)
  = (inr disc_50, sampleStore 5)
  /\ determinePrize (readyEnv (1 # 2) (9995 # 10000)) (sampleStore 4)
     = (inr free_4h, sampleStore 4).
Proof.
  split.
  - apply (determinePrize_inventory_guard
             (readyEnv (1 # 2) (9995 # 10000)) PRIZES PRIZES_0 (sampleStore 5));
      try reflexivity; vm_compute; discriminate.
  - apply (determinePrize_inventory_guard
             (readyEnv (1 # 2) (9995 # 10000)) PRIZES PRIZES_0 (sampleStore 4));
      try reflexivity; vm_compute; discriminate.
Defined.

(** ** [handleSubmit] *)

Lemma ordersWhere_spec p d s docId o :
  In (docId, o) (ordersWhere p d s)
  <-> orders s !! docId = Some o /\ phone (form o) = p /\ date (form o) = d.
Proof.
  unfold ordersWhere. rewrite List.filter_In, <- list_elem_of_In, elem_of_map_to_list.
  cbn. rewrite andb_true_iff, !String.eqb_eq. tauto.
Qed.

Lemma ordersWhere_nil p d s :
  ordersWhere p d s = []
  <-> forall docId o, orders s !! docId = Some o ->
                      ~ (phone (form o) = p /\ date (form o) = d).
Proof.
  split.
  - intros E docId o Ho [Hp Hd].
    assert (In (docId, o) (ordersWhere p d s)) as Hin
        by (apply ordersWhere_spec; auto).
    rewrite E in Hin. destruct Hin.
  - intros H. destruct (ordersWhere p d s) as [|[docId o] rest] eqn:E; [reflexivity|].
    assert (In (docId, o) (ordersWhere p d s)) as Hin by (rewrite E; now left).
    apply ordersWhere_spec in Hin as (Ho & Hp & Hd).
    exfalso. apply (H docId o Ho). auto.
Qed.

(** The successful path, read forwards. *)
Lemma handleSubmit_registers env uid formData s :
  phoneRegex_test (phone formData) = true ->
  submitFnsLoaded env = true ->
  getDocs_rejects env = None ->
  ordersWhere (phone formData) (date formData) s = [] ->
  addDoc_rejects env = None ->
  exists prize,
    determinePrize env s = (inr prize, s) /\
    let eligible := 4 <=? parseInt (duration formData) in
    let serial := if eligible then Some (generateSerial (random_serial env)) else None in
    handleSubmit env (Some uid) formData s
    = (inr (Registered (autoId env) prize serial),
       mkStore (<[autoId env := newOrder env formData uid eligible serial prize]> (orders s))
               (prize_counts s)).
Proof.
  intros Hphone Hfns Hq Hnone Hadd.
  destruct (determinePrize_returns env s) as [prize Hprize].
  exists prize. split; [exact Hprize|]. cbn zeta.
  assert (addFnsLoaded env = true) as Hfns'.
  { unfold submitFnsLoaded in Hfns. unfold addFnsLoaded.
    repeat (apply andb_prop in Hfns as [Hfns ?]).
    repeat (apply andb_true_intro; split); assumption. }
  unfold handleSubmit, getDocs_where, addDoc. unfold_M.
  revert Hprize. generalize (determinePrize env). intros dp Hprize.
  rewrite Hphone. cbn [negb]. rewrite Hfns. cbn [negb]. cbv beta.
  rewrite Hq. cbv beta iota. rewrite Hnone. cbn.
  rewrite Hprize, Hfns'. cbn. rewrite Hadd. reflexivity.
Qed.

(** The successful path, read backwards: what an outcome [Registered]
    tells about the request, the environment and the store. *)
Lemma handleSubmit_Registered_inv env user formData s docId prize serial s' :
  handleSubmit env user formData s = (inr (Registered docId prize serial), s') ->
  exists uid,
    user = Some uid /\
    phoneRegex_test (phone formData) = true /\
    ordersWhere (phone formData) (date formData) s = [] /\
    determinePrize env s = (inr prize, s) /\
    docId = autoId env /\
    serial = (if 4 <=? parseInt (duration formData)
              then Some (generateSerial (random_serial env)) else None) /\
    s' = mkStore (<[autoId env :=
                      newOrder env formData uid (4 <=? parseInt (duration formData))
                               serial prize]> (orders s))
                 (prize_counts s).
Proof.
  unfold handleSubmit, getDocs_where, addDoc. unfold_M.
  destruct (determinePrize_returns env s) as [p Hp].
  revert Hp. generalize (determinePrize env). intros dp Hp.
  destruct user as [uid|]; [|discriminate].
  destruct (phoneRegex_test (phone formData)); [|discriminate]. cbn [negb].
  destruct (submitFnsLoaded env); [|discriminate]. cbn [negb]. cbv beta.
  destruct (getDocs_rejects env) as [[]|]; try discriminate. cbv beta iota.
  destruct (ordersWhere (phone formData) (date formData) s) eqn:Hq; [|discriminate].
  cbn. rewrite Hp.
  destruct (addFnsLoaded env); [|discriminate]. cbn.
  destruct (addDoc_rejects env) as [[]|]; try discriminate.
  intros E. inversion E; subst. exists uid. repeat split; reflexivity.
Qed.

(** C3, as stated, fails when the read of [stats/prize_counts] rejects:
    the [catch] block returns [PRIZES[0]], so a selected [free_4h] becomes
    [none_1] instead of standing. *)
Lemma determinePrize_read_error_counterexample :
  selectPrize (random_prize (statsDownEnv (9995 # 10000))) = free_4h /\
  limit free_4h <> -1 /\
  getDoc_rejects (statsDownEnv (9995 # 10000)) = Some other_error /\
  determinePrize (statsDownEnv (9995 # 10000)) (sampleStore 0)
  = (inr none_1, sampleStore 0) /\
  none_1 <> free_4h.
Proof. repeat split; try reflexivity; discriminate. Qed.

(** C3 (amended): for a selected prize with a finite limit, when the
    Firestore functions [doc], [getDoc] or [db] are not loaded
    [determinePrize] returns the selected prize without downgrading; when
    the read of [stats/prize_counts] rejects, it returns [PRIZES[0]], the
    first entry of the table, whatever was selected.  In both cases it
    returns normally and leaves the store alone, so the registration does
    not fail because of the read. *)
Theorem determinePrize_read_failure
        (env : Env) (table : list (Prize Q)) (first : Prize Q) (s : Store) :
  let selectedPrize := weightedSelect 0%Q Qplus Qleb first table (random_prize env) in
  limit selectedPrize <> -1 ->
  ((getFirestoreFn env "doc" && getFirestoreFn env "getDoc" && db env = false ->
    determinePrizeOn env table first s = (inr selectedPrize, s)) /\
   (forall e,
      getFirestoreFn env "doc" && getFirestoreFn env "getDoc" && db env = true ->
      getDoc_rejects env = Some e ->
      determinePrizeOn env table first s = (inr first, s)) /\
   (forall uid formData,
      phoneRegex_test (phone formData) = true ->
      submitFnsLoaded env = true ->
      getDocs_rejects env = None ->
      ordersWhere (phone formData) (date formData) s = [] ->
      addDoc_rejects env = None ->
      exists prize serial s',
        determinePrize env s = (inr prize, s) /\
        handleSubmit env (Some uid) formData s
        = (inr (Registered (autoId env) prize serial), s'))).
Proof.
  intros sel Hlim. split; [|split].
  3: { intros uid formData Hphone Hfns Hq Hnone Hadd.
       destruct (handleSubmit_registers env uid formData s Hphone Hfns Hq Hnone Hadd)
         as (prize & Hprize & Hrun).
       cbn zeta in Hrun. eauto. }
  - intros Hfn. unfold determinePrizeOn, checkLimit. fold sel. unfold_M.
    destruct (Z.eqb_spec (limit sel) (-1)) as [?|_]; [contradiction|].
    now rewrite Hfn.
  - intros e Hfn Hread.
    unfold determinePrizeOn, checkLimit, getDoc_prize_counts. fold sel. unfold_M.
    destruct (Z.eqb_spec (limit sel) (-1)) as [?|_]; [contradiction|].
    now rewrite Hfn, Hread.
Qed.

Lemma determinePrize_read_failure_witness :
  determinePrize (notLoadedEnv (9995 # 10000)) (sampleStore 5)
  = (inr free_4h, sampleStore 5)
  /\ determinePrize (statsDownEnv (9995 # 10000)) (sampleStore 0)
     = (inr PRIZES_0, sampleStore 0)
  /\ exists prize serial s',
       determinePrize (statsDownEnv (9995 # 10000)) (sampleStore 0)
       = (inr prize, sampleStore 0) /\
       handleSubmit (statsDownEnv (9995 # 10000)) (Some "demo-user-2")
                    (sampleForm "2025-02-02" 4) (sampleStore 0)
       = (inr (Registered "order-2" prize serial), s').
Proof.
  destruct (determinePrize_read_failure
              (notLoadedEnv (9995 # 10000)) PRIZES PRIZES_0 (sampleStore 5)
              ltac:(vm_compute; discriminate)) as (Hnot & _ & _).
  destruct (determinePrize_read_failure
              (statsDownEnv (9995 # 10000)) PRIZES PRIZES_0 (sampleStore 0)
              ltac:(vm_compute; discriminate)) as (_ & Hdown & Hreg).
  split; [apply Hnot; reflexivity|].
  split; [apply (Hdown other_error); reflexivity|].
  apply (Hreg "demo-user-2" (sampleForm "2025-02-02" 4)); reflexivity.
Defined.

(** The phone pattern accepts exactly "09" followed by eight ASCII digits. *)
Lemma phoneRegex_test_spec (p : string) :
  phoneRegex_test p = true
  <-> exists rest, p = String "0" (String "9" rest)
                   /\ String.length rest = 8%nat /\ allDigits rest = true.
Proof.
  split.
  - destruct p as [|a [|b rest]]; try discriminate.
    + cbn. destruct a as [[] [] [] [] [] [] [] []]; discriminate.
    + cbn. destruct a as [[] [] [] [] [] [] [] []]; try discriminate.
      destruct b as [[] [] [] [] [] [] [] []]; try discriminate.
      intros H. apply andb_prop in H as [H1 H2]. apply Nat.eqb_eq in H1.
      exists rest. auto.
  - intros (rest & -> & Hlen & Hdig). cbn. now rewrite Hlen, Hdig.
Qed.

(** C4: a phone that does not match [^09\d{8}$] ends the registration with
    the invalid-phone message; an existing order with the same phone and the
    same date ends it with the duplicate message; in both cases the store is
    left exactly as it was, so no order is created.  Orders with the same
    phone but another date do not count: such a request passes the check
    and is registered.  (The request comes from a signed-in [user], the
    store functions are loaded and the duplicate query does not reject.) *)
Theorem handleSubmit_rejections (env : Env) (uid : string) (formData : FormData) (s : Store) :
  (phoneRegex_test (phone formData) = false ->
   handleSubmit env (Some uid) formData s = (inr InvalidInput, s)) /\
  (phoneRegex_test (phone formData) = true ->
   submitFnsLoaded env = true ->
   getDocs_rejects env = None ->
   (exists docId o, orders s !! docId = Some o
                    /\ phone (form o) = phone formData
                    /\ date (form o) = date formData) ->
   handleSubmit env (Some uid) formData s = (inr DuplicateEntry, s)) /\
  (phoneRegex_test (phone formData) = true ->
   submitFnsLoaded env = true ->
   getDocs_rejects env = None ->
   addDoc_rejects env = None ->
   (forall docId o, orders s !! docId = Some o ->
                    phone (form o) = phone formData ->
                    date (form o) <> date formData) ->
   exists prize serial s',
     handleSubmit env (Some uid) formData s
     = (inr (Registered (autoId env) prize serial), s')
     /\ exists o, orders s' !! autoId env = Some o /\ form o = formData).
Proof.
  split; [|split].
  - intros Hphone. unfold handleSubmit. unfold_M. now rewrite Hphone.
  - intros Hphone Hfns Hq (docId & o & Ho & Hp & Hd).
    unfold handleSubmit, getDocs_where. unfold_M.
    rewrite Hphone. cbn [negb]. rewrite Hfns. cbn [negb]. cbv beta.
    rewrite Hq. cbv beta iota.
    destruct (ordersWhere (phone formData) (date formData) s) eqn:E; [|reflexivity].
    exfalso. apply (proj1 (ordersWhere_nil _ _ _) E docId o Ho). auto.
  - intros Hphone Hfns Hq Hadd Hother.
    assert (ordersWhere (phone formData) (date formData) s = []) as Hnone.
    { apply ordersWhere_nil. intros docId o Ho [Hp Hd].
      now apply (Hother docId o Ho Hp). }
    destruct (handleSubmit_registers env uid formData s Hphone Hfns Hq Hnone Hadd)
      as (prize & _ & Hrun).
    cbn zeta in Hrun. eexists _, _, _. split; [exact Hrun|].
    cbn [orders]. eexists. split; [apply lookup_insert_eq|reflexivity].
Qed.

Lemma handleSubmit_rejections_witness :
  handleSubmit (readyEnv (1 # 2) (1 # 2)) (Some "demo-user-2")
               (mkFormData "0812345678" "2025-02-01" "大林店" "南" 4) (sampleStore 0)
  = (inr InvalidInput, sampleStore 0)
  /\ handleSubmit (readyEnv (1 # 2) (1 # 2)) (Some "demo-user-2")
                  (sampleForm "2025-02-01" 4) (sampleStore 0)
     = (inr DuplicateEntry, sampleStore 0)
  /\ exists prize serial s',
       handleSubmit (readyEnv (1 # 2) (1 # 2)) (Some "demo-user-2")
                    (sampleForm "2025-02-02" 4) (sampleStore 0)
       = (inr (Registered "order-2" prize serial), s')
       /\ exists o, orders s' !! "order-2" = Some o
                    /\ form o = sampleForm "2025-02-02" 4.
Proof.
  split; [|split].
  - apply (handleSubmit_rejections (readyEnv (1 # 2) (1 # 2)) "demo-user-2"
             (mkFormData "0812345678" "2025-02-01" "大林店" "南" 4) (sampleStore 0)).
    reflexivity.
  - apply (handleSubmit_rejections (readyEnv (1 # 2) (1 # 2)) "demo-user-2"
             (sampleForm "2025-02-01" 4) (sampleStore 0)); try reflexivity.
    exists "order-1", earlierOrder. repeat split; reflexivity.
  - apply (handleSubmit_rejections (readyEnv (1 # 2) (1 # 2)) "demo-user-2"
             (sampleForm "2025-02-02" 4) (sampleStore 0)); try reflexivity.
    intros docId o Ho _. cbn in Ho.
    apply lookup_singleton_Some in Ho as [_ <-]. discriminate.
Defined.

(** C5: for a registration that passes the duplicate check and is saved,
    [isGrandEligible] is [duration >= 4]; the saved order carries a serial
    exactly when it is eligible; the serial is then the decimal string of an
    integer between 100000 and 999999, six digits matching [^\d{6}$]; an
    ineligible order has [grandDrawSerial = null].  [Math.random()] is
    taken in [[0, 1)]. *)
Theorem handleSubmit_grand_draw
        (env : Env) (user : option string) (formData : FormData) (s : Store)
        (docId : string) (prize : Prize Q) (serial : option string) (s' : Store) :
  (0 <= random_serial env)%Q -> (random_serial env < 1)%Q ->
  handleSubmit env user formData s = (inr (Registered docId prize serial), s') ->
  exists o,
    orders s' !! docId = Some o /\
    isGrandEligible o = (4 <=? duration formData) /\
    grandDrawSerial o = serial /\
    (isGrandEligible o = true <-> grandDrawSerial o <> None) /\
    (isGrandEligible o = true ->
     exists n, 100000 <= n <= 999999
               /\ grandDrawSerial o = Some (toString n)
               /\ sixDigits_test (toString n) = true) /\
    (isGrandEligible o = false -> grandDrawSerial o = None).
Proof.
  intros H0 H1 Hrun.
  apply handleSubmit_Registered_inv in Hrun
    as (uid & _ & _ & _ & _ & -> & Hserial & ->).
  eexists. split; [apply lookup_insert_eq|]. cbn.
  unfold parseInt in *. split; [reflexivity|]. split; [reflexivity|].
  destruct (generateSerial_sixDigits (random_serial env) H0 H1) as (n & Hn & Hs & H6).
  destruct (4 <=? duration formData); subst serial.
  - split; [split; [discriminate|reflexivity]|].
    split; [|discriminate]. intros _. exists n. rewrite <- Hs. auto.
  - split; [split; [discriminate|congruence]|].
    split; [discriminate|reflexivity].
Qed.

Lemma handleSubmit_grand_draw_witness :
  (exists o,
     orders (snd (handleSubmit (readyEnv (1 # 2) (1 # 2)) (Some "demo-user-2")
                               (sampleForm "2025-02-02" 4) (sampleStore 0)))
       !! "order-2" = Some o
     /\ isGrandEligible o = true /\ grandDrawSerial o = Some "550000")
  /\ (exists o,
        orders (snd (handleSubmit (readyEnv (1 # 2) (1 # 2)) (Some "demo-user-2")
                                  (sampleForm "2025-02-02" 3) (sampleStore 0)))
          !! "order-2" = Some o
        /\ isGrandEligible o = false /\ grandDrawSerial o = None).
Proof.
  split.
  - destruct (handleSubmit_grand_draw
                (readyEnv (1 # 2) (1 # 2)) (Some "demo-user-2")
                (sampleForm "2025-02-02" 4) (sampleStore 0)
                "order-2" none_2 (Some "550000")
                (snd (handleSubmit (readyEnv (1 # 2) (1 # 2)) (Some "demo-user-2")
                                   (sampleForm "2025-02-02" 4) (sampleStore 0))))
      as (o & Ho & He & Hs & _); [discriminate | reflexivity | vm_compute; reflexivity |].
    exists o. auto.
  - destruct (handleSubmit_grand_draw
                (readyEnv (1 # 2) (1 # 2)) (Some "demo-user-2")
                (sampleForm "2025-02-02" 3) (sampleStore 0)
                "order-2" none_2 None
                (snd (handleSubmit (readyEnv (1 # 2) (1 # 2)) (Some "demo-user-2")
                                   (sampleForm "2025-02-02" 3) (sampleStore 0))))
      as (o & Ho & He & Hs & _); [discriminate | reflexivity | vm_compute; reflexivity |].
    exists o. auto.
Defined.

(** C10, as stated, fails on the note: the object passed to [addDoc] has no
    [note] key, so the saved order has no note field rather than an empty
    string. *)
Lemma handleSubmit_note_counterexample :
  exists o,
    handleSubmit (readyEnv (1 # 2) (1 # 2)) (Some "demo-user-2")
                 (sampleForm "2025-02-02" 4) (sampleStore 0)
    = (inr (Registered "order-2" none_2 (Some "550000")),
       mkStore (<["order-2" := o]> (orders (sampleStore 0)))
               (prize_counts (sampleStore 0)))
    /\ prizeSent o = false
    /\ note o = None
    /\ note o <> Some "".
Proof.
  eexists. split; [vm_compute; reflexivity|].
  cbn. repeat split. discriminate.
Qed.

(** C10 (amended): every order saved by a successful registration has
    [prizeSent = false] and no [note] field at all (the admin table shows a
    missing note as the empty string through [row.note || '']), next to the
    snapshot of the prize (id, name, type), the serial and the form. *)
Theorem handleSubmit_new_order
        (env : Env) (user : option string) (formData : FormData) (s : Store)
        (docId : string) (prize : Prize Q) (serial : option string) (s' : Store) :
  handleSubmit env user formData s = (inr (Registered docId prize serial), s') ->
  exists o,
    orders s' !! docId = Some o /\
    prizeSent o = false /\
    note o = None /\
    noteShown o = "" /\
    scratchPrizeId o = id prize /\
    scratchPrizeName o = name prize /\
    scratchPrizeType o = type prize /\
    grandDrawSerial o = serial /\
    form o = formData.
Proof.
  intros Hrun.
  apply handleSubmit_Registered_inv in Hrun
    as (uid & _ & _ & _ & _ & -> & _ & ->).
  eexists. split; [apply lookup_insert_eq|]. cbn. repeat split.
Qed.

Lemma handleSubmit_new_order_witness :
  exists o,
    orders (snd (handleSubmit (readyEnv (1 # 2) (1 # 2)) (Some "demo-user-2")
                              (sampleForm "2025-02-02" 4) (sampleStore 0)))
      !! "order-2" = Some o
    /\ prizeSent o = false /\ note o = None /\ scratchPrizeId o = "none_2".
Proof.
  destruct (handleSubmit_new_order
              (readyEnv (1 # 2) (1 # 2)) (Some "demo-user-2")
              (sampleForm "2025-02-02" 4) (sampleStore 0)
              "order-2" none_2 (Some "550000")
              (snd (handleSubmit (readyEnv (1 # 2) (1 # 2)) (Some "demo-user-2")
                                 (sampleForm "2025-02-02" 4) (sampleStore 0))))
    as (o & Ho & Hsent & Hnote & _ & Hid & _); [vm_compute; reflexivity|].
  exists o. auto.
Defined.

(** ** Registration and the prize counts *)

(** [determinePrize] hands back the store it was given. *)
Lemma determinePrize_reads_only env s : snd (determinePrize env s) = s.
Proof. destruct (determinePrize_returns env s) as [p ->]. reflexivity. Qed.

(** No exit of [handleSubmit] touches [stats/prize_counts]. *)
Lemma handleSubmit_keeps_prize_counts env user formData s :
  prize_counts (snd (handleSubmit env user formData s)) = prize_counts s.
Proof.
  unfold handleSubmit, getDocs_where, addDoc. unfold_M.
  destruct (determinePrize_returns env s) as [p Hp].
  revert Hp. generalize (determinePrize env). intros dp Hp.
  destruct user as [uid|]; [|reflexivity].
  destruct (phoneRegex_test (phone formData)); [|reflexivity]. cbn [negb].
  destruct (submitFnsLoaded env); [|reflexivity]. cbn [negb]. cbv beta.
  destruct (getDocs_rejects env) as [[]|]; try reflexivity. cbv beta iota.
  destruct (ordersWhere (phone formData) (date formData) s); [|reflexivity].
  cbn. rewrite Hp.
  destruct (addFnsLoaded env); [|reflexivity]. cbn.
  destruct (addDoc_rejects env) as [[]|]; reflexivity.
Qed.

Lemma registerAll_keeps_prize_counts requests s :
  prize_counts (registerAll requests s) = prize_counts s.
Proof.
  unfold registerAll. revert s.
  induction requests as [|[[env user] formData] rest IH]; intros s; [reflexivity|].
  cbn [List.fold_left fst snd]. rewrite IH.
  apply handleSubmit_keeps_prize_counts.
Qed.

(** C7: registration never writes the prize counts.  [determinePrize]
    returns the store unchanged, and after any sequence of registrations
    the [stats/prize_counts] document is the one the sequence started with;
    so the count [determinePrize] reads for a prize, and with it the answer
    of the exhaustion test [currentCount >= limit], is the same before and
    after: the page's own awards never exhaust a limited prize. *)
Theorem registration_never_counts
        (requests : list (Env * option string * FormData)) (s : Store)
        (env : Env) (p : Prize Q) :
  snd (determinePrize env s) = s /\
  prize_counts (registerAll requests s) = prize_counts s /\
  currentCount (prize_counts (registerAll requests s)) (id p)
  = currentCount (prize_counts s) (id p) /\
  (limit p <=? currentCount (prize_counts (registerAll requests s)) (id p))
  = (limit p <=? currentCount (prize_counts s) (id p)).
Proof.
  split; [apply determinePrize_reads_only|].
  rewrite registerAll_keeps_prize_counts. auto.
Qed.

(** Three registrations that each win [free_4h] leave its count at 4. *)
Example registration_never_counts_run :
  let win d := (readyEnv (1 # 2) (9995 # 10000), Some "demo-user-2", sampleForm d 4) in
  let after := registerAll [win "2025-02-02"; win "2025-02-03"; win "2025-02-04"]
                           (sampleStore 4) in
  currentCount (prize_counts after) "free_4h" = 4
  /\ fst (determinePrize (readyEnv (1 # 2) (9995 # 10000)) after) = inr free_4h.
Proof. vm_compute. split; reflexivity. Qed.

(** ** [clearAllData] *)

(** Deleting a list of ids one by one: which documents remain. *)
Lemma Promise_all_deleteDoc_ok env ids s s' :
  Promise_all_deleteDoc env ids s = (inr tt, s') ->
  prize_counts s' = prize_counts s /\
  forall docId, orders s' !! docId
                = if bool_decide (docId ∈ ids) then None else orders s !! docId.
Proof.
  revert s. induction ids as [|i rest IH]; intros s; cbn.
  - unfold ret, mret, M_ret. intros E. inversion E; subst.
    split; [reflexivity|]. intros docId.
    rewrite bool_decide_eq_false_2; [reflexivity|apply not_elem_of_nil].
  - unfold deleteDoc. destruct (deleteDoc_rejects env i) as [e|].
    + destruct (Promise_all_deleteDoc env rest s); discriminate.
    + intros Hrest. apply IH in Hrest as [Hc Ho]. cbn in *.
      split; [exact Hc|]. intros docId. rewrite Ho.
      destruct (decide (docId ∈ rest)) as [Hin|Hin].
      * rewrite !bool_decide_eq_true_2; [reflexivity|now right|assumption].
      * rewrite (bool_decide_eq_false_2 _ Hin).
        destruct (decide (i = docId)) as [->|Hne].
        -- rewrite bool_decide_eq_true_2 by now left. apply lookup_delete_eq.
        -- rewrite bool_decide_eq_false_2; [now apply lookup_delete_ne|].
           rewrite elem_of_cons. intros [->|?]; tauto.
Qed.

(** The prize counts survive every exit of the deletions. *)
Lemma Promise_all_deleteDoc_prize_counts env ids s :
  prize_counts (snd (Promise_all_deleteDoc env ids s)) = prize_counts s.
Proof.
  revert s. induction ids as [|i rest IH]; intros s; cbn; [reflexivity|].
  unfold deleteDoc. destruct (deleteDoc_rejects env i) as [e|].
  - specialize (IH s). destruct (Promise_all_deleteDoc env rest s). exact IH.
  - rewrite IH. reflexivity.
Qed.

Lemma Promise_all_deleteDoc_runs env ids s :
  (forall docId, deleteDoc_rejects env docId = None) ->
  exists s', Promise_all_deleteDoc env ids s = (inr tt, s').
Proof.
  intros Hok. revert s. induction ids as [|i rest IH]; intros s; cbn.
  - eexists. reflexivity.
  - unfold deleteDoc. rewrite Hok. apply IH.
Qed.

Lemma clearAllData_Cleared_inv env s n s' :
  clearAllData env s = (inr (Cleared n), s') ->
  n = length (map_to_list (orders s)) /\
  Promise_all_deleteDoc env (List.map fst (map_to_list (orders s))) s = (inr tt, s').
Proof.
  unfold clearAllData, getDocs. unfold_M.
  destruct (confirm_first env); [|discriminate].
  destruct (confirm_second env); [|discriminate]. cbn [negb].
  destruct (negb _); [discriminate|].
  destruct (getDocs_rejects env) as [[]|]; try discriminate.
  destruct (Promise_all_deleteDoc env _ s) as [[[]|[]] s1]; try discriminate.
  intros E. inversion E; subst. auto.
Qed.

(** C6, as stated, fails on the prize counts: [clearAllData] deletes the
    orders and never touches [stats/prize_counts].  After a successful
    clear of a store in which [free_4h] stands at its limit 5, no order is
    left but the count is still 5 and [free_4h] is still exhausted. *)
Lemma clearAllData_counts_counterexample :
  clearAllData (readyEnv (1 # 2) (1 # 2)) (sampleStore 5)
  = (inr (Cleared 1), mkStore ∅ (Some {["free_4h" := 5]}))
  /\ currentCount (Some {["free_4h" := 5]}) "free_4h" = 5
  /\ currentCount (Some {["free_4h" := 5]}) "free_4h" <> 0
  /\ fst (determinePrize (readyEnv (1 # 2) (9995 # 10000))
                         (mkStore ∅ (Some {["free_4h" := 5]})))
     = inr disc_50.
Proof.
  split; [vm_compute; reflexivity|].
  split; [vm_compute; reflexivity|].
  split; [vm_compute; discriminate|vm_compute; reflexivity].
Qed.

(** C6 (amended): [clearAllData] deletes every document of [orders] and
    leaves [stats/prize_counts] as it was.  When both confirmations are
    given, the store functions are loaded and no call rejects, it reports
    the number of orders deleted and the store holds no order afterwards;
    whenever it reports success no order remains; and on every exit the
    prize counts are unchanged. *)
Theorem clearAllData_orders_only (env : Env) (s : Store) :
  prize_counts (snd (clearAllData env s)) = prize_counts s /\
  (forall n s', clearAllData env s = (inr (Cleared n), s') ->
                orders s' = ∅ /\ n = size (orders s)) /\
  (confirm_first env = true -> confirm_second env = true ->
   getFirestoreFn env "collection" && getFirestoreFn env "getDocs"
   && getFirestoreFn env "deleteDoc" && getFirestoreFn env "doc" && db env = true ->
   getDocs_rejects env = None ->
   (forall docId, deleteDoc_rejects env docId = None) ->
   clearAllData env s = (inr (Cleared (size (orders s))), mkStore ∅ (prize_counts s))).
Proof.
  assert (forall n s', clearAllData env s = (inr (Cleared n), s') ->
                       orders s' = ∅ /\ n = size (orders s)
                       /\ prize_counts s' = prize_counts s) as Hinv.
  { intros n s' Hrun. apply clearAllData_Cleared_inv in Hrun as [-> Hdel].
    apply Promise_all_deleteDoc_ok in Hdel as [Hc Ho].
    split; [|split; [apply length_map_to_list|exact Hc]].
    apply map_eq. intros docId. rewrite Ho, lookup_empty.
    destruct (orders s !! docId) as [o|] eqn:E.
    - rewrite bool_decide_eq_true_2; [reflexivity|].
      apply list_elem_of_fmap. exists (docId, o). split; [reflexivity|].
      now apply elem_of_map_to_list.
    - now destruct (bool_decide _). }
  split; [|split].
  - unfold clearAllData, getDocs. unfold_M.
    destruct (confirm_first env); [|reflexivity].
    destruct (confirm_second env); [|reflexivity]. cbn [negb].
    destruct (negb _); [reflexivity|].
    destruct (getDocs_rejects env) as [[]|]; try reflexivity.
    pose proof (Promise_all_deleteDoc_prize_counts
                  env (List.map fst (map_to_list (orders s))) s) as Hc.
    destruct (Promise_all_deleteDoc env _ s) as [[[]|[]] s1]; exact Hc.
  - intros n s' Hrun. apply Hinv in Hrun as (? & ? & ?). auto.
  - intros Hc1 Hc2 Hfns Hq Hdel.
    destruct (Promise_all_deleteDoc_runs
                env (List.map fst (map_to_list (orders s))) s Hdel) as [s1 Hs1].
    assert (clearAllData env s
            = (inr (Cleared (length (map_to_list (orders s)))), s1)) as Hrun.
    { unfold clearAllData, getDocs. unfold_M.
      rewrite Hc1, Hc2, Hfns, Hq. cbn. rewrite Hs1. reflexivity. }
    rewrite Hrun. destruct (Hinv _ _ Hrun) as (Ho & Hn & Hp).
    rewrite Hn. destruct s1 as [o1 c1]. cbn in Ho, Hp. subst. reflexivity.
Qed.

Lemma clearAllData_orders_only_witness :
  clearAllData (readyEnv (1 # 2) (1 # 2)) (sampleStore 5)
  = (inr (Cleared (size (orders (sampleStore 5)))),
     mkStore ∅ (prize_counts (sampleStore 5))).
Proof.
  apply (clearAllData_orders_only (readyEnv (1 # 2) (1 # 2)) (sampleStore 5));
    reflexivity.
Defined.

(** ** The admin lists *)

Section ArraySortFacts.
Context {A : Type}.
Variable compare : A -> A -> Z.

Lemma sortInsert_Permutation a l : Permutation (sortInsert compare a l) (a :: l).
Proof.
  induction l as [|b rest IH]; cbn; [reflexivity|].
  destruct (compare a b <=? 0); [reflexivity|].
  rewrite IH. apply perm_swap.
Qed.

Lemma Array_sort_Permutation l : Permutation (Array_sort compare l) l.
Proof.
  induction l as [|a rest IH]; cbn; [reflexivity|].
  rewrite sortInsert_Permutation. now constructor.
Qed.
End ArraySortFacts.






Lemma fetchAdminData_runs env tab s :
  getFirestoreFn env "collection" && getFirestoreFn env "getDocs" && db env = true ->
  getDocs_rejects env = None ->
  fetchAdminData env tab s
  = (inr (AdminData (adminRows tab (map_to_list (orders s)))), s).
Proof.
  intros Hfns Hq. unfold fetchAdminData, getDocs. unfold_M.
  now rewrite Hfns, Hq.
Qed.



(** ** The reveal detector *)

Lemma countTransparent_bounds alphas :
  0 <= countTransparent alphas <= Z.of_nat (length alphas).
Proof.
  induction alphas as [|a rest IH]; cbn [countTransparent length]; [lia|].
  destruct (a <? 128); lia.
Qed.

(** [percent > 75] in integers: more than three quarters of the pixels. *)
Lemma exceedsThreshold_spec alphas :
  exceedsThreshold alphas = true
  <-> 75 * Z.of_nat (length alphas) < 100 * countTransparent alphas.
Proof.
  unfold exceedsThreshold, percentCleared. rewrite Qltb_true.
  pose proof (countTransparent_bounds alphas) as Hb. revert Hb.
  generalize (countTransparent alphas). intros t Hb.
  destruct (length alphas) as [|k].
  - assert (t = 0) as -> by lia. vm_compute. split; discriminate.
  - change (Z.of_nat (S k)) with (Z.pos (Pos.of_succ_nat k)).
    unfold Qlt, Qdiv, Qinv, Qmult, inject_Z. simpl. lia.
Qed.

Lemma countTransparent_opaque n : countTransparent (List.repeat 255 n) = 0.
Proof. induction n as [|n IH]; cbn; [reflexivity|exact IH]. Qed.

(** A freshly painted overlay is not cleared. *)
Lemma exceedsThreshold_opaque n : exceedsThreshold (List.repeat 255 n) = false.
Proof.
  apply not_true_is_false. rewrite exceedsThreshold_spec, countTransparent_opaque.
  lia.
Qed.

Section ScratchCardFacts.
Variable fillArc : Z -> Z -> Q -> Q -> list Z -> list Z.

Lemma mounted_settled w h : settled (mounted w h).
Proof. split; [reflexivity|]. intros _. apply exceedsThreshold_opaque. Qed.

Lemma checkReveal_isRevealed s :
  isRevealed (checkReveal s) = isRevealed s || exceedsThreshold (alpha s).
Proof.
  unfold checkReveal. destruct (exceedsThreshold (alpha s)); cbn.
  - now rewrite orb_true_r.
  - now rewrite orb_false_r.
Qed.

Lemma checkReveal_alpha s : alpha (checkReveal s) = alpha s.
Proof. unfold checkReveal. now destruct (exceedsThreshold (alpha s)). Qed.

(** After an event the card is revealed iff it was already, or the
    overlay now is past the threshold. *)
Lemma dispatch_isRevealed e s :
  settled s ->
  isRevealed (dispatch fillArc e s)
  = isRevealed s || exceedsThreshold (alpha (dispatch fillArc e s)).
Proof.
  intros [Href Hinv]. unfold dispatch. cbn [syncRevealedRef isRevealed alpha].
  destruct (isRevealed s) eqn:Hrev.
  - destruct e; cbn [handle]; unfold startDraw, endDraw, draw, initCanvas.
    + cbn. now rewrite Hrev.
    + rewrite Href. rewrite orb_true_r. now rewrite Hrev.
    + rewrite checkReveal_isRevealed. cbn. now rewrite Hrev.
    + cbn. now rewrite Hrev.
  - specialize (Hinv eq_refl). cbn [orb].
    destruct e; cbn [handle]; unfold startDraw, endDraw, draw, initCanvas.
    + cbn. now rewrite Hrev, Hinv.
    + destruct (negb (isDrawing s) || isRevealedRef s).
      * now rewrite Hrev, Hinv.
      * rewrite checkReveal_isRevealed, checkReveal_alpha. cbn. now rewrite Hrev.
    + rewrite checkReveal_isRevealed, checkReveal_alpha. cbn. now rewrite Hrev.
    + cbn. now rewrite Hrev, exceedsThreshold_opaque.
Qed.

Lemma dispatch_settled e s : settled s -> settled (dispatch fillArc e s).
Proof.
  intros Hs. split; [reflexivity|].
  rewrite (dispatch_isRevealed e s Hs). intros H.
  now apply orb_false_elim in H as [_ H].
Qed.

Lemma run_app pre post s :
  run fillArc (pre ++ post) s = run fillArc post (run fillArc pre s).
Proof. unfold run. apply fold_left_app. Qed.

Lemma run_snoc pre e s :
  run fillArc (pre ++ [e]) s = dispatch fillArc e (run fillArc pre s).
Proof. now rewrite run_app. Qed.

Lemma run_settled events s : settled s -> settled (run fillArc events s).
Proof.
  revert s. induction events as [|e rest IH]; intros s Hs; [exact Hs|].
  cbn. apply IH. now apply dispatch_settled.
Qed.

(** Revealed is final: no event leads back to Active. *)
Lemma dispatch_one_way e s :
  isRevealed s = true -> isRevealed (dispatch fillArc e s) = true.
Proof.
  intros Hrev. unfold dispatch. cbn [syncRevealedRef isRevealed].
  destruct e; cbn [handle]; unfold startDraw, endDraw, draw, initCanvas.
  - exact Hrev.
  - destruct (negb (isDrawing s) || isRevealedRef s); [exact Hrev|].
    rewrite checkReveal_isRevealed. cbn. now rewrite Hrev.
  - rewrite checkReveal_isRevealed. cbn. now rewrite Hrev.
  - exact Hrev.
Qed.

Lemma run_one_way events s :
  isRevealed s = true -> isRevealed (run fillArc events s) = true.
Proof.
  revert s. induction events as [|e rest IH]; intros s Hs; [exact Hs|].
  cbn. apply IH. now apply dispatch_one_way.
Qed.

(** Once revealed, a drag changes nothing at all. *)
Lemma dispatch_move_revealed x y s :
  settled s -> isRevealed s = true ->
  dispatch fillArc (PointerMove x y) s = s.
Proof.
  intros [Href _] Hrev. unfold dispatch, handle, draw.
  rewrite Href, Hrev, orb_true_r.
  destruct s as [w h a d r rr o c]. cbn in *. now subst.
Qed.

Lemma transitions_revealed events s :
  isRevealed s = true -> transitions fillArc events s = 0%nat.
Proof.
  revert s. induction events as [|e rest IH]; intros s Hs; [reflexivity|].
  cbn [transitions]. rewrite Hs. cbn.
  apply IH. now apply dispatch_one_way.
Qed.

Lemma transitions_count events s :
  isRevealed s = false ->
  transitions fillArc events s
  = if isRevealed (run fillArc events s) then 1%nat else 0%nat.
Proof.
  revert s. induction events as [|e rest IH]; intros s Hs; cbn [transitions].
  - cbn. now rewrite Hs.
  - rewrite Hs. cbn [negb andb].
    change (run fillArc (e :: rest) s) with (run fillArc rest (dispatch fillArc e s)).
    destruct (isRevealed (dispatch fillArc e s)) eqn:Hd.
    + rewrite (transitions_revealed rest _ Hd), (run_one_way rest _ Hd). reflexivity.
    + rewrite (IH _ Hd). reflexivity.
Qed.

(** Without a release among the events, [onComplete] is scheduled exactly
    when the state goes from Active to Revealed. *)
Lemma dispatch_completions e s :
  settled s -> isRelease e = false ->
  completions (dispatch fillArc e s)
  = (completions s
     + if negb (isRevealed s) && isRevealed (dispatch fillArc e s) then 1 else 0)%nat.
Proof.
  intros [Href Hinv] He. unfold dispatch. cbn [syncRevealedRef isRevealed completions].
  destruct e; try discriminate; cbn [handle]; unfold startDraw, draw, initCanvas.
  - cbn. destruct (isRevealed s); cbn; lia.
  - destruct (isDrawing s); cbn [negb orb].
    + rewrite Href. destruct (isRevealed s) eqn:Hrev; cbn; [lia|].
      unfold checkReveal, scratch. cbn.
      destruct (exceedsThreshold (fillArc _ _ _ _ _)); cbn; [|rewrite Hrev; cbn]; lia.
    + destruct (isRevealed s); cbn; lia.
  - cbn. destruct (isRevealed s); cbn; lia.
Qed.

Lemma run_completions events s :
  settled s -> forallb (fun e => negb (isRelease e)) events = true ->
  completions (run fillArc events s)
  = (completions s + transitions fillArc events s)%nat.
Proof.
  revert s. induction events as [|e rest IH]; intros s Hs Hev.
  - cbn. lia.
  - cbn in Hev. apply andb_prop in Hev as [He Hrest].
    apply negb_true_iff in He.
    change (run fillArc (e :: rest) s) with (run fillArc rest (dispatch fillArc e s)).
    rewrite (IH _ (dispatch_settled e s Hs) Hrest).
    rewrite (dispatch_completions e s Hs He). cbn [transitions]. lia.
Qed.

(** C9: from the mounted card, whatever the events (presses, drags,
    releases, resizes) and whatever the rasteriser, the state goes from
    Active to Revealed at most once, and once exactly when the run ends
    Revealed; while the card is Active the cleared fraction has not
    exceeded 75%, and the event that takes it past 75% is the one that
    reveals; Revealed is never left; a drag on a revealed card changes
    nothing: no scratching, no transition; and over presses and drags alone
    [onComplete] is scheduled as often as the state changes.  (The ref
    [isRevealedRef] is brought up to date by React's effect between two
    events.) *)
Theorem scratch_reveals_once (w h : Z) (events : list Event) :
  transitions fillArc events (mounted w h)
  = (if isRevealed (run fillArc events (mounted w h)) then 1%nat else 0%nat) /\
  (forall pre,
      isRevealed (run fillArc pre (mounted w h)) = false ->
      exceedsThreshold (alpha (run fillArc pre (mounted w h))) = false) /\
  (forall pre e,
      isRevealed (run fillArc pre (mounted w h)) = false ->
      isRevealed (run fillArc (pre ++ [e]) (mounted w h))
      = exceedsThreshold (alpha (run fillArc (pre ++ [e]) (mounted w h)))) /\
  (forall pre post,
      isRevealed (run fillArc pre (mounted w h)) = true ->
      isRevealed (run fillArc (pre ++ post) (mounted w h)) = true) /\
  (forall pre x y,
      isRevealed (run fillArc pre (mounted w h)) = true ->
      dispatch fillArc (PointerMove x y) (run fillArc pre (mounted w h))
      = run fillArc pre (mounted w h)) /\
  (forallb (fun e => negb (isRelease e)) events = true ->
   completions (run fillArc events (mounted w h))
   = transitions fillArc events (mounted w h)).
Proof.
  split; [now apply transitions_count|].
  split; [|split; [|split; [|split]]].
  5: { intros Hev. now rewrite run_completions by (apply mounted_settled || exact Hev). }
  - intros pre. apply (run_settled pre _ (mounted_settled w h)).
  - intros pre e Hact. rewrite run_snoc.
    rewrite dispatch_isRevealed by apply run_settled, mounted_settled.
    now rewrite Hact.
  - intros pre post Hrev. rewrite run_app. now apply run_one_way.
  - intros pre x y Hrev.
    apply dispatch_move_revealed; [apply run_settled, mounted_settled|exact Hrev].
Qed.
End ScratchCardFacts.

Lemma scratch_reveals_once_witness :
  transitions discFill sampleDrag (mounted 60 40) = 1%nat
  /\ isRevealed (run discFill [PointerDown; PointerMove 20 20] (mounted 60 40)) = false
  /\ isRevealed (run discFill ([PointerDown; PointerMove 20 20] ++ [PointerMove 40 20])
                     (mounted 60 40)) = true
  /\ dispatch discFill (PointerMove 30 20)
              (run discFill [PointerDown; PointerMove 20 20; PointerMove 40 20]
                   (mounted 60 40))
     = run discFill [PointerDown; PointerMove 20 20; PointerMove 40 20] (mounted 60 40).
Proof.
  destruct (scratch_reveals_once discFill 60 40 sampleDrag)
    as (Hcount & _ & Hfirst & _ & Hmove & _).
  split; [rewrite Hcount; vm_compute; reflexivity|].
  split; [vm_compute; reflexivity|].
  split.
  - rewrite (Hfirst [PointerDown; PointerMove 20 20] (PointerMove 40 20));
      vm_compute; reflexivity.
  - apply Hmove. vm_compute. reflexivity.
Defined.

(** The numbers behind the run above.  The release after the reveal runs
    [checkReveal] once more, so the [onComplete] timer is set a second
    time; the state stays Revealed. *)
Remark sampleDrag_run :
  List.map (fun n => countTransparent
                       (alpha (run discFill (List.firstn n sampleDrag) (mounted 60 40))))
           [1; 2; 3; 4; 5]%nat
  = [0; 1264; 2032; 2032; 2032]
  /\ List.map (fun n => completions
                          (run discFill (List.firstn n sampleDrag) (mounted 60 40)))
              [1; 2; 3; 4; 5]%nat
     = [0; 0; 1; 1; 2]%nat.
Proof. split; vm_compute; reflexivity. Qed.

(** * Further properties of the code *)

(** ** The prize a registration gets *)

Section SelectionMembership.
Context {num : Type}.
Variable add : num -> num -> num.
Variable leb : num -> num -> bool.

(** The loop hands back an entry of the table, or the initial selection. *)
Lemma selectFrom_member rand ps c sel :
  selectFrom add leb rand ps c sel = sel \/ In (selectFrom add leb rand ps c sel) ps.
Proof.
  revert c. induction ps as [|p rest IH]; intros c; cbn; [now left|].
  destruct (leb rand (add c (prob p))); [right; now left|].
  destruct (IH (add c (prob p))) as [H|H]; [now left|right; now right].
Qed.
End SelectionMembership.

Lemma selectPrize_member rand : In (selectPrize rand) PRIZES.
Proof.
  unfold selectPrize, weightedSelect.
  destruct (selectFrom_member Qplus Qleb rand PRIZES 0%Q PRIZES_0) as [-> | H];
    [now left | exact H].
Qed.

(** The three ways [checkLimit] can answer. *)
Lemma checkLimit_choices env table first sel s :
  exists p, checkLimit env table first sel s = (inr p, s)
            /\ (p = sel \/ p = fallbackPrize table first \/ p = first)
            /\ (limit sel = -1 -> p = sel).
Proof.
  unfold checkLimit, getDoc_prize_counts. unfold_M.
  destruct (Z.eqb_spec (limit sel) (-1)) as [Hl|Hl]; cbn [negb].
  - exists sel. auto.
  - destruct (negb _); [exists sel; split; [reflexivity|split; [auto|tauto]]|].
    destruct (getDoc_rejects env).
    + exists first. split; [reflexivity|split; [auto|tauto]].
    + cbn. destruct (limit sel <=? _).
      * exists (fallbackPrize table first). split; [reflexivity|split; [auto|tauto]].
      * exists sel. split; [reflexivity|split; [auto|tauto]].
Qed.

(** X1: whatever the store holds and whichever call fails,
    [determinePrize] answers with an entry of [PRIZES]: the selected
    prize, [disc_50] or [none_1]; and a selected prize without limit is
    never replaced. *)
Theorem determinePrize_result (env : Env) (s : Store) :
  exists p,
    determinePrize env s = (inr p, s) /\
    In p PRIZES /\
    (p = selectPrize (random_prize env) \/ p = disc_50 \/ p = none_1) /\
    (limit (selectPrize (random_prize env)) = -1 -> p = selectPrize (random_prize env)).
Proof.
  destruct (checkLimit_choices env PRIZES PRIZES_0 (selectPrize (random_prize env)) s)
    as (p & Hrun & Hp & Hunl).
  exists p. split; [exact Hrun|]. split; [|split; [exact Hp|exact Hunl]].
  destruct Hp as [-> | [-> | ->]].
  - apply selectPrize_member.
  - cbn. tauto.
  - cbn. tauto.
Qed.

(** ** What a registration writes *)

(** One call of [handleSubmit] either leaves the store alone or ends
    [Registered]. *)
Lemma handleSubmit_store_step env user formData s :
  exists outcome s',
    handleSubmit env user formData s = (inr outcome, s') /\
    (s' = s \/ exists docId prize serial, outcome = Registered docId prize serial).
Proof.
  unfold handleSubmit, getDocs_where, addDoc. unfold_M.
  destruct (determinePrize_returns env s) as [p Hp].
  revert Hp. generalize (determinePrize env). intros dp Hp.
  destruct user as [uid|]; [|eauto].
  destruct (phoneRegex_test (phone formData)); [|cbn; eauto]. cbn [negb].
  destruct (submitFnsLoaded env); [|cbn; eauto]. cbn [negb]. cbv beta.
  destruct (getDocs_rejects env) as [[]|]; try (cbn; eauto). cbv beta iota.
  destruct (ordersWhere (phone formData) (date formData) s); [|cbn; eauto].
  cbn. rewrite Hp.
  destruct (addFnsLoaded env); [|cbn; eauto]. cbn.
  destruct (addDoc_rejects env) as [[]|]; cbn; eauto 10.
Qed.

(** X2: [handleSubmit] always comes back with an outcome (its [catch]
    takes every rejection); unless the outcome is [Registered] the store is
    exactly as before, and in every case no document other than the newly
    added one is created, changed or removed. *)
Theorem handleSubmit_writes_one_order
        (env : Env) (user : option string) (formData : FormData) (s : Store) :
  exists outcome s',
    handleSubmit env user formData s = (inr outcome, s') /\
    ((forall docId prize serial, outcome <> Registered docId prize serial) -> s' = s) /\
    (forall docId, docId <> autoId env -> orders s' !! docId = orders s !! docId) /\
    prize_counts s' = prize_counts s.
Proof.
  destruct (handleSubmit_store_step env user formData s)
    as (outcome & s' & Hrun & Hstep).
  exists outcome, s'. split; [exact Hrun|].
  destruct Hstep as [-> | (docId & prize & serial & ->)].
  - auto.
  - apply handleSubmit_Registered_inv in Hrun
      as (uid & _ & _ & _ & _ & _ & _ & ->).
    split; [intros H; now destruct (H docId prize serial)|].
    split; [|reflexivity].
    intros k Hk. cbn. now apply lookup_insert_ne.
Qed.

(** X3: the store failures of a registration.  For a signed-in user with
    a valid phone: if a Firestore function or [db] is missing the outcome
    is the not-ready message; if the duplicate query rejects, or the
    duplicate check passes and [addDoc] rejects, the outcome is the
    permission message for a permission error and the busy message
    otherwise.  In each case nothing is written: no partial order. *)
Theorem handleSubmit_store_errors
        (env : Env) (uid : string) (formData : FormData) (s : Store) :
  phoneRegex_test (phone formData) = true ->
  (submitFnsLoaded env = false ->
   handleSubmit env (Some uid) formData s = (inr StoreNotReady, s)) /\
  (forall e, submitFnsLoaded env = true -> getDocs_rejects env = Some e ->
   handleSubmit env (Some uid) formData s
   = (inr (match e with permission_denied => PermissionError
                      | other_error => SystemBusy end), s)) /\
  (forall e, submitFnsLoaded env = true -> getDocs_rejects env = None ->
   ordersWhere (phone formData) (date formData) s = [] ->
   addDoc_rejects env = Some e ->
   handleSubmit env (Some uid) formData s
   = (inr (match e with permission_denied => PermissionError
                      | other_error => SystemBusy end), s)).
Proof.
  intros Hphone. split; [|split].
  - intros Hfns. unfold handleSubmit. unfold_M. now rewrite Hphone, Hfns.
  - intros e Hfns Hq. unfold handleSubmit, getDocs_where. unfold_M.
    rewrite Hphone, Hfns, Hq. now destruct e.
  - intros e Hfns Hq Hnone Hadd.
    assert (addFnsLoaded env = true) as Hfns'.
    { unfold submitFnsLoaded in Hfns. unfold addFnsLoaded.
      repeat (apply andb_prop in Hfns as [Hfns ?]).
      repeat (apply andb_true_intro; split); assumption. }
    destruct (determinePrize_returns env s) as [p Hp].
    unfold handleSubmit, getDocs_where, addDoc. unfold_M.
    revert Hp. generalize (determinePrize env). intros dp Hp.
    rewrite Hphone. cbn [negb]. rewrite Hfns. cbn [negb]. cbv beta.
    rewrite Hq. cbv beta iota. rewrite Hnone. cbn.
    rewrite Hp, Hfns'. cbn. rewrite Hadd. now destruct e.
Qed.

Lemma handleSubmit_store_errors_witness :
  handleSubmit (notLoadedEnv (1 # 2)) (Some "demo-user-2")
               (sampleForm "2025-02-02" 4) (sampleStore 0)
  = (inr StoreNotReady, sampleStore 0)
  /\ handleSubmit
       (mkEnv (fun _ => true) true None None (Some permission_denied)
              (fun _ => None) (1 # 2) (1 # 2) "order-2" 1738400000 true true)
       (Some "demo-user-2") (sampleForm "2025-02-02" 4) (sampleStore 0)
     = (inr PermissionError, sampleStore 0).
Proof.
  split.
  - apply (handleSubmit_store_errors (notLoadedEnv (1 # 2)) "demo-user-2"
             (sampleForm "2025-02-02" 4) (sampleStore 0)); reflexivity.
  - apply (proj2 (proj2 (handleSubmit_store_errors
             (mkEnv (fun _ => true) true None None (Some permission_denied)
                    (fun _ => None) (1 # 2) (1 # 2) "order-2" 1738400000 true true)
             "demo-user-2" (sampleForm "2025-02-02" 4) (sampleStore 0) eq_refl))
             permission_denied); reflexivity.
Defined.

Lemma determinePrize_member env s p :
  determinePrize env s = (inr p, s) -> In p PRIZES.
Proof.
  intros Hrun.
  destruct (checkLimit_choices env PRIZES PRIZES_0 (selectPrize (random_prize env)) s)
    as (q & Hq & Hchoice & _).
  unfold determinePrize, determinePrizeOn in Hrun.
  change (weightedSelect 0%Q Qplus Qleb PRIZES_0 PRIZES (random_prize env))
    with (selectPrize (random_prize env)) in Hrun.
  rewrite Hq in Hrun. inversion Hrun; subst q.
  destruct Hchoice as [-> | [-> | ->]]; [apply selectPrize_member | cbn; tauto | cbn; tauto].
Qed.

(** A stored order with the submitted phone and date stops the request. *)
Lemma handleSubmit_duplicate env uid formData s docId o :
  phoneRegex_test (phone formData) = true ->
  submitFnsLoaded env = true ->
  getDocs_rejects env = None ->
  orders s !! docId = Some o ->
  phone (form o) = phone formData ->
  date (form o) = date formData ->
  handleSubmit env (Some uid) formData s = (inr DuplicateEntry, s).
Proof.
  intros Hphone Hfns Hq Ho Hp Hd.
  unfold handleSubmit, getDocs_where. unfold_M.
  rewrite Hphone. cbn [negb]. rewrite Hfns. cbn [negb]. cbv beta.
  rewrite Hq. cbv beta iota.
  destruct (ordersWhere (phone formData) (date formData) s) eqn:E; [|reflexivity].
  exfalso. apply (proj1 (ordersWhere_nil _ _ _) E docId o Ho). auto.
Qed.

(** X4: once a registration has been saved, a second request with the same
    phone and date is turned down as a duplicate and writes nothing,
    whoever sends it and whatever else the form says (with the store
    reachable). *)
Theorem resubmit_is_duplicate
        (env1 env2 : Env) (user1 : option string) (uid2 : string)
        (formData1 formData2 : FormData) (s s' : Store)
        (docId : string) (prize : Prize Q) (serial : option string) :
  handleSubmit env1 user1 formData1 s = (inr (Registered docId prize serial), s') ->
  submitFnsLoaded env2 = true ->
  getDocs_rejects env2 = None ->
  phone formData2 = phone formData1 ->
  date formData2 = date formData1 ->
  handleSubmit env2 (Some uid2) formData2 s' = (inr DuplicateEntry, s').
Proof.
  intros Hrun Hfns Hq Hp Hd.
  apply handleSubmit_Registered_inv in Hrun
    as (uid & _ & Hphone & _ & _ & -> & _ & ->).
  eapply handleSubmit_duplicate; try eassumption.
  - now rewrite Hp.
  - cbn. apply lookup_insert_eq.
  - cbn. now rewrite Hp.
  - cbn. now rewrite Hd.
Qed.

Lemma resubmit_is_duplicate_witness :
  let first := handleSubmit (readyEnv (1 # 2) (1 # 2)) (Some "demo-user-2")
                            (sampleForm "2025-02-02" 4) (sampleStore 0) in
  handleSubmit (readyEnv (1 # 4) (9 # 10)) (Some "demo-user-3")
               (mkFormData "0912345678" "2025-02-02" "八德店" "梅" 1) (snd first)
  = (inr DuplicateEntry, snd first).
Proof.
  cbv zeta.
  apply (resubmit_is_duplicate
           (readyEnv (1 # 2) (1 # 2)) (readyEnv (1 # 4) (9 # 10))
           (Some "demo-user-2") "demo-user-3"
           (sampleForm "2025-02-02" 4)
           (mkFormData "0912345678" "2025-02-02" "八德店" "梅" 1)
           (sampleStore 0) _ "order-2" none_2 (Some "550000"));
    reflexivity.
Defined.

(** One registration keeps the phone-and-date pairs distinct. *)
Lemma handleSubmit_uniquePhoneDate env user formData s :
  uniquePhoneDate s -> uniquePhoneDate (snd (handleSubmit env user formData s)).
Proof.
  intros Huniq.
  destruct (handleSubmit_store_step env user formData s)
    as (outcome & s' & Hrun & Hstep).
  rewrite Hrun. cbn [snd].
  destruct Hstep as [-> | (docId & prize & serial & ->)]; [exact Huniq|].
  apply handleSubmit_Registered_inv in Hrun
    as (uid & _ & _ & Hnone & _ & -> & _ & ->).
  pose proof (proj1 (ordersWhere_nil _ _ _) Hnone) as Hfree.
  intros i j o1 o2 Hi Hj Hp Hd. cbn in Hi, Hj.
  destruct (decide (autoId env = i)) as [<-|Hni];
    destruct (decide (autoId env = j)) as [<-|Hnj]; [reflexivity| | |].
  - rewrite lookup_insert_eq in Hi. rewrite lookup_insert_ne in Hj by exact Hnj.
    inversion Hi; subst o1. cbn in Hp, Hd.
    exfalso. apply (Hfree j o2 Hj). auto.
  - rewrite lookup_insert_eq in Hj. rewrite lookup_insert_ne in Hi by exact Hni.
    inversion Hj; subst o2. cbn in Hp, Hd.
    exfalso. apply (Hfree i o1 Hi). auto.
  - rewrite lookup_insert_ne in Hi by exact Hni.
    rewrite lookup_insert_ne in Hj by exact Hnj.
    exact (Huniq i j o1 o2 Hi Hj Hp Hd).
Qed.

(** X5: registrations handled one after another never leave two orders
    with the same phone and date: if the stored orders are pairwise
    distinct in (phone, date), they still are after any sequence of
    [handleSubmit] calls, even when an added document takes the id of an
    existing one. *)
Theorem registerAll_uniquePhoneDate
        (requests : list (Env * option string * FormData)) (s : Store) :
  uniquePhoneDate s -> uniquePhoneDate (registerAll requests s).
Proof.
  unfold registerAll. revert s.
  induction requests as [|[[env user] formData] rest IH]; intros s Hs; [exact Hs|].
  cbn [List.fold_left fst snd]. apply IH.
  now apply handleSubmit_uniquePhoneDate.
Qed.

Lemma registerAll_uniquePhoneDate_witness :
  uniquePhoneDate
    (registerAll
       [ (readyEnv (1 # 2) (1 # 2), Some "demo-user-2", sampleForm "2025-02-01" 4);
         (readyEnv (1 # 2) (1 # 2), Some "demo-user-2", sampleForm "2025-02-02" 4);
         (readyEnv (1 # 2) (1 # 2), Some "demo-user-2", sampleForm "2025-02-02" 1) ]
       (sampleStore 0)).
Proof.
  apply registerAll_uniquePhoneDate.
  intros i j o1 o2 Hi Hj _ _. cbn in Hi, Hj.
  apply lookup_singleton_Some in Hi as [<- _].
  apply lookup_singleton_Some in Hj as [<- _]. reflexivity.
Defined.

(** One registration keeps the stored orders well formed. *)
Lemma handleSubmit_wellFormed env user formData s :
  (0 <= random_serial env)%Q -> (random_serial env < 1)%Q ->
  (forall i o, orders s !! i = Some o -> wellFormedOrder o) ->
  forall i o, orders (snd (handleSubmit env user formData s)) !! i = Some o ->
              wellFormedOrder o.
Proof.
  intros H0 H1 Hwf.
  destruct (handleSubmit_store_step env user formData s)
    as (outcome & s' & Hrun & Hstep).
  rewrite Hrun. cbn [snd].
  destruct Hstep as [-> | (docId & prize & serial & ->)]; [exact Hwf|].
  apply handleSubmit_Registered_inv in Hrun
    as (uid & _ & Hphone & _ & Hprize & -> & Hserial & ->).
  intros i o Hi. cbn in Hi.
  destruct (decide (autoId env = i)) as [<-|Hni].
  - rewrite lookup_insert_eq in Hi. inversion Hi; subst o. clear Hi.
    unfold wellFormedOrder, newOrder, parseInt in *. cbn.
    destruct (generateSerial_sixDigits (random_serial env) H0 H1) as (n & _ & _ & H6).
    split; [exact Hphone|]. split; [reflexivity|].
    split; [|split].
    + subst serial. destruct (4 <=? duration formData); split; congruence.
    + subst serial. intros sr. destruct (4 <=? duration formData); [|discriminate].
      intros E. inversion E; subst sr. exact H6.
    + exists prize. split; [exact (determinePrize_member env s prize Hprize)|auto].
  - rewrite lookup_insert_ne in Hi by exact Hni. exact (Hwf i o Hi).
Qed.

(** X6: every order [handleSubmit] saves satisfies the invariants of the
    data model, and keeps the earlier ones: after any sequence of
    registrations (with [Math.random()] in [[0, 1)]) each stored order has
    a valid phone, [isGrandEligible = (duration >= 4)], a serial exactly
    when it is eligible, a serial of six digits, and a prize id, name and
    type copied from one entry of [PRIZES]. *)
Theorem registerAll_wellFormed
        (requests : list (Env * option string * FormData)) (s : Store) :
  Forall (fun r => (0 <= random_serial (fst (fst r)))%Q
                   /\ (random_serial (fst (fst r)) < 1)%Q) requests ->
  (forall i o, orders s !! i = Some o -> wellFormedOrder o) ->
  forall i o, orders (registerAll requests s) !! i = Some o -> wellFormedOrder o.
Proof.
  unfold registerAll. intros Hreq. revert s.
  induction Hreq as [|[[env user] formData] rest [H0 H1] Hrest IH]; intros s Hs;
    [exact Hs|].
  cbn [List.fold_left fst snd] in *. apply IH.
  now apply handleSubmit_wellFormed.
Qed.

Lemma registerAll_wellFormed_witness :
  exists o,
    orders (registerAll
              [ (readyEnv (1 # 2) (1 # 2), Some "demo-user-2", sampleForm "2025-02-02" 4);
                (readyEnv (3 # 4) (99 # 100), Some "demo-user-2", sampleForm "2025-02-03" 1) ]
              (mkStore ∅ None)) !! "order-2" = Some o
    /\ wellFormedOrder o /\ duration (form o) = 1.
Proof.
  eexists. split; [vm_compute; reflexivity|]. split; [|reflexivity].
  apply (registerAll_wellFormed
           [ (readyEnv (1 # 2) (1 # 2), Some "demo-user-2", sampleForm "2025-02-02" 4);
             (readyEnv (3 # 4) (99 # 100), Some "demo-user-2", sampleForm "2025-02-03" 1) ]
           (mkStore ∅ None)) with (i := "order-2").
  - repeat constructor; cbn; (discriminate || reflexivity).
  - intros i o Hi. cbn in Hi. rewrite lookup_empty in Hi. discriminate.
  - vm_compute. reflexivity.
Defined.

(** ** Admin edits *)

Section AdminEditFacts.
Variable env : Env.
Variable updateDoc_rejects : string -> option FirestoreError.

(** An edit either succeeds, rewriting one existing document and the rows
    with its id, or ends with a message and changes nothing. *)
Lemma editOrder_cases docId fields rows s :
  (exists o, orders s !! docId = Some o /\
             editOrder env updateDoc_rejects docId fields rows s
             = (inr (MutationDone (mapRows docId fields rows)),
                mkStore (<[docId := fields o]> (orders s)) (prize_counts s)))
  \/ (exists outcome,
        editOrder env updateDoc_rejects docId fields rows s = (inr outcome, s)
        /\ forall rows', outcome <> MutationDone rows').
Proof.
  unfold editOrder, updateDoc. unfold_M.
  destruct (negb _); [right; eexists; split; [reflexivity|discriminate]|].
  destruct (updateDoc_rejects docId) as [[]|];
    try (right; eexists; split; [reflexivity|discriminate]).
  destruct (orders s !! docId) as [o|] eqn:Ho.
  - left. exists o. split; reflexivity.
  - right. eexists. split; [reflexivity|discriminate].
Qed.

Lemma editOrder_done docId fields rows s o :
  getFirestoreFn env "updateDoc" && getFirestoreFn env "doc" && db env = true ->
  updateDoc_rejects docId = None ->
  orders s !! docId = Some o ->
  editOrder env updateDoc_rejects docId fields rows s
  = (inr (MutationDone (mapRows docId fields rows)),
     mkStore (<[docId := fields o]> (orders s)) (prize_counts s)).
Proof.
  intros Hfns Hupd Ho. unfold editOrder, updateDoc. unfold_M.
  rewrite Hfns, Hupd. cbn. rewrite Ho. reflexivity.
Qed.

Lemma mapRows_In docId fields rows k o' :
  In (k, o') (mapRows docId fields rows)
  <-> exists o, In (k, o) rows /\ o' = if String.eqb k docId then fields o else o.
Proof.
  unfold mapRows. rewrite List.in_map_iff. split.
  - intros ([k0 o0] & E & Hin). cbn in E.
    destruct (String.eqb k0 docId) eqn:Ek; injection E as <- <-;
      exists o0; rewrite Ek; auto.
  - intros (o & Hin & ->). exists (k, o). split; [|exact Hin]. cbn.
    now destruct (String.eqb k docId).
Qed.

Lemma editOrder_mirrors docId fields rows s :
  mirrors rows s ->
  mirrors (adminDataAfter rows (editOrder env updateDoc_rejects docId fields rows s))
          (snd (editOrder env updateDoc_rejects docId fields rows s)).
Proof.
  intros Hm.
  destruct (editOrder_cases docId fields rows s)
    as [(o & Ho & ->) | (outcome & -> & Hnot)].
  - unfold adminDataAfter. cbn [fst snd]. intros k o' Hin.
    apply mapRows_In in Hin as (o0 & Hin & ->). apply Hm in Hin. cbn.
    destruct (String.eqb_spec k docId) as [->|Hne].
    + rewrite lookup_insert_eq. congruence.
    + rewrite lookup_insert_ne by congruence. exact Hin.
  - unfold adminDataAfter. cbn [fst snd].
    destruct outcome; try exact Hm. now destruct (Hnot adminData).
Qed.

(** X7: after [togglePrizeSent] or [updateNote], whether it succeeded or
    ended with an alert, the rows of the admin table still agree with the
    stored documents if they did before; the call touches no document
    other than the one named and never the prize counts. *)
Theorem admin_edit_keeps_table_in_step
        (docId : string) (currentStatus : bool) (newNote : string)
        (rows : list (string * Order)) (s : Store) :
  mirrors rows s ->
  let toggled := togglePrizeSent env updateDoc_rejects docId currentStatus rows s in
  let noted := updateNote env updateDoc_rejects docId newNote rows s in
  mirrors (adminDataAfter rows toggled) (snd toggled) /\
  mirrors (adminDataAfter rows noted) (snd noted) /\
  (forall k, k <> docId ->
             orders (snd toggled) !! k = orders s !! k
             /\ orders (snd noted) !! k = orders s !! k) /\
  prize_counts (snd toggled) = prize_counts s /\
  prize_counts (snd noted) = prize_counts s.
Proof.
  intros Hm toggled noted. subst toggled noted. unfold togglePrizeSent, updateNote.
  split; [now apply editOrder_mirrors|]. split; [now apply editOrder_mirrors|].
  assert (forall fields,
             (forall k, k <> docId ->
                        orders (snd (editOrder env updateDoc_rejects docId fields rows s)) !! k
                        = orders s !! k)
             /\ prize_counts (snd (editOrder env updateDoc_rejects docId fields rows s))
                = prize_counts s) as Hframe.
  { intros fields.
    destruct (editOrder_cases docId fields rows s)
      as [(o & Ho & ->) | (outcome & -> & _)]; cbn [snd]; [|auto].
    split; [|reflexivity]. intros k Hk. cbn. now apply lookup_insert_ne. }
  split; [|split]; try apply Hframe.
  intros k Hk. split; now apply Hframe.
Qed.
End AdminEditFacts.

Lemma admin_edit_keeps_table_in_step_witness :
  let rows := [("order-1", earlierOrder)] in
  let toggled := togglePrizeSent (readyEnv (1 # 2) (1 # 2)) (fun _ => None)
                                 "order-1" false rows (sampleStore 0) in
  mirrors (adminDataAfter rows toggled) (snd toggled)
  /\ adminDataAfter rows toggled = [("order-1", setPrizeSent true earlierOrder)].
Proof.
  cbv zeta. split; [|reflexivity].
  apply (admin_edit_keeps_table_in_step
           (readyEnv (1 # 2) (1 # 2)) (fun _ => None) "order-1" false ""
           [("order-1", earlierOrder)] (sampleStore 0)).
  intros k o [E|[]]. inversion E; subst. reflexivity.
Defined.

Lemma setPrizeSent_back o :
  setPrizeSent (negb (negb (prizeSent o))) (setPrizeSent (negb (prizeSent o)) o) = o.
Proof. destruct o as [f u g sr pi pn pt b t n]. cbn. now rewrite negb_involutive. Qed.

Lemma mapRows_toggle_back docId o rows s :
  mirrors rows s -> orders s !! docId = Some o ->
  mapRows docId (setPrizeSent (negb (negb (prizeSent o))))
          (mapRows docId (setPrizeSent (negb (prizeSent o))) rows) = rows.
Proof.
  intros Hm Ho. unfold mapRows. rewrite List.map_map.
  rewrite <- (List.map_id rows) at 2. apply List.map_ext_in.
  intros [k ok] Hin. cbn.
  destruct (String.eqb_spec k docId) as [->|Hne]; cbn.
  - rewrite String.eqb_refl. cbn.
    apply Hm in Hin. rewrite Ho in Hin. inversion Hin; subst ok.
    now rewrite setPrizeSent_back.
  - destruct (String.eqb_spec k docId); [contradiction|reflexivity].
Qed.

(** X8: pressing the sent button of a row twice puts everything back.  With
    the table in step with the store and the updates going through, the
    first [togglePrizeSent(row.id, row.prizeSent)] stores the opposite flag
    and the second one, made on the refreshed row, restores the store and
    the rows exactly. *)
Theorem togglePrizeSent_twice
        (env : Env) (updateDoc_rejects : string -> option FirestoreError)
        (docId : string) (o : Order) (rows : list (string * Order)) (s : Store) :
  mirrors rows s ->
  In (docId, o) rows ->
  getFirestoreFn env "updateDoc" && getFirestoreFn env "doc" && db env = true ->
  updateDoc_rejects docId = None ->
  exists rows1 s1,
    togglePrizeSent env updateDoc_rejects docId (prizeSent o) rows s
    = (inr (MutationDone rows1), s1) /\
    orders s1 !! docId = Some (setPrizeSent (negb (prizeSent o)) o) /\
    In (docId, setPrizeSent (negb (prizeSent o)) o) rows1 /\
    togglePrizeSent env updateDoc_rejects docId (negb (prizeSent o)) rows1 s1
    = (inr (MutationDone rows), s).
Proof.
  intros Hm Hin Hfns Hupd. pose proof (Hm _ _ Hin) as Ho.
  unfold togglePrizeSent.
  rewrite (editOrder_done env updateDoc_rejects docId _ rows s o Hfns Hupd Ho).
  eexists _, _. split; [reflexivity|].
  split; [cbn; apply lookup_insert_eq|].
  split.
  { apply mapRows_In. exists o. split; [exact Hin|]. now rewrite String.eqb_refl. }
  erewrite editOrder_done; [|exact Hfns|exact Hupd|cbn; apply lookup_insert_eq].
  rewrite (mapRows_toggle_back docId o rows s Hm Ho). cbn.
  rewrite insert_insert_eq, setPrizeSent_back, (insert_id _ _ _ Ho).
  now destruct s.
Qed.

Lemma togglePrizeSent_twice_witness :
  exists rows1 s1,
    togglePrizeSent (readyEnv (1 # 2) (1 # 2)) (fun _ => None) "order-1" false
                    [("order-1", earlierOrder)] (sampleStore 0)
    = (inr (MutationDone rows1), s1) /\
    togglePrizeSent (readyEnv (1 # 2) (1 # 2)) (fun _ => None) "order-1" true rows1 s1
    = (inr (MutationDone [("order-1", earlierOrder)]), sampleStore 0).
Proof.
  destruct (togglePrizeSent_twice
              (readyEnv (1 # 2) (1 # 2)) (fun _ => None) "order-1" earlierOrder
              [("order-1", earlierOrder)] (sampleStore 0))
    as (rows1 & s1 & H1 & _ & _ & H2);
    [ intros k o [E|[]]; inversion E; subst; reflexivity
    | now left | reflexivity | reflexivity |].
  exists rows1, s1. split; [exact H1|exact H2].
Defined.

(** Which rows a tab lists. *)
Lemma adminRows_In tab data k o :
  In (k, o) (adminRows tab data) <-> In (k, o) data /\ listedOn tab o = true.
Proof.
  unfold adminRows, listedOn.
  rewrite <- !list_elem_of_In, (Array_sort_Permutation byTimeDesc _), !list_elem_of_In.
  destruct (String.eqb tab "grand"); rewrite List.filter_In; reflexivity.
Qed.

(** X9: a saved note is read back.  After [updateNote] has gone through,
    [fetchAdminData] lists, on either tab, the same documents as before,
    unchanged except that the edited one carries the new note, which the
    table then shows. *)
Theorem updateNote_then_fetch
        (env : Env) (updateDoc_rejects : string -> option FirestoreError)
        (docId newNote tab : string) (o : Order)
        (rows : list (string * Order)) (s : Store) :
  getFirestoreFn env "updateDoc" && getFirestoreFn env "doc" && db env = true ->
  updateDoc_rejects docId = None ->
  orders s !! docId = Some o ->
  getFirestoreFn env "collection" && getFirestoreFn env "getDocs" && db env = true ->
  getDocs_rejects env = None ->
  exists rows1 s1 before after,
    updateNote env updateDoc_rejects docId newNote rows s = (inr (MutationDone rows1), s1) /\
    fetchAdminData env tab s = (inr (AdminData before), s) /\
    fetchAdminData env tab s1 = (inr (AdminData after), s1) /\
    (forall k o', In (k, o') after
                  <-> exists o0, In (k, o0) before
                                 /\ o' = if String.eqb k docId then setNote newNote o0 else o0) /\
    (forall o', In (docId, o') after -> note o' = Some newNote /\ noteShown o' = newNote).
Proof.
  intros Hfns Hupd Ho Hfetch Hq. unfold updateNote.
  rewrite (editOrder_done env updateDoc_rejects docId _ rows s o Hfns Hupd Ho).
  eexists _, _, _, _. split; [reflexivity|].
  split; [now apply fetchAdminData_runs|].
  split; [now apply fetchAdminData_runs|].
  cbn [orders].
  assert (forall k o', In (k, o') (adminRows tab (map_to_list (<[docId := setNote newNote o]> (orders s))))
                       <-> exists o0, In (k, o0) (adminRows tab (map_to_list (orders s)))
                                      /\ o' = if String.eqb k docId then setNote newNote o0 else o0)
    as Hlist.
  { intros k o'. rewrite adminRows_In, <- list_elem_of_In, elem_of_map_to_list.
    destruct (String.eqb_spec k docId) as [->|Hne].
    - rewrite lookup_insert_eq. split.
      + intros [E Hl]. inversion E; subst o'. exists o. split; [|reflexivity].
        apply adminRows_In. rewrite <- list_elem_of_In, elem_of_map_to_list.
        split; [exact Ho|exact Hl].
      + intros (o0 & Hin & ->). apply adminRows_In in Hin as [Hin Hl].
        rewrite <- list_elem_of_In, elem_of_map_to_list, Ho in Hin.
        inversion Hin; subst o0. split; [reflexivity|exact Hl].
    - rewrite lookup_insert_ne by congruence. split.
      + intros [E Hl]. exists o'. split; [|reflexivity].
        apply adminRows_In. rewrite <- list_elem_of_In, elem_of_map_to_list. auto.
      + intros (o0 & Hin & ->). apply adminRows_In in Hin as [Hin Hl].
        rewrite <- list_elem_of_In, elem_of_map_to_list in Hin. auto. }
  split; [exact Hlist|].
  intros o' Hin. apply Hlist in Hin as (o0 & _ & ->).
  rewrite String.eqb_refl. split; reflexivity.
Qed.

Lemma updateNote_then_fetch_witness :
  exists rows1 s1 after,
    updateNote (readyEnv (1 # 2) (1 # 2)) (fun _ => None) "c" "VIP" [] adminStore
    = (inr (MutationDone rows1), s1) /\
    fetchAdminData (readyEnv (1 # 2) (1 # 2)) "grand" s1 = (inr (AdminData after), s1) /\
    (forall o', In ("c", o') after -> note o' = Some "VIP" /\ noteShown o' = "VIP").
Proof.
  destruct (updateNote_then_fetch
              (readyEnv (1 # 2) (1 # 2)) (fun _ => None) "c" "VIP" "grand"
              (savedOrder 4 disc_50 200) [] adminStore)
    as (rows1 & s1 & before & after & H1 & _ & H2 & _ & H3);
    try reflexivity.
  exists rows1, s1, after. auto.
Defined.

(** X10: the two admin edits are independent field writes.  On an existing
    document, with the updates going through: a note followed by another
    note leaves what the second alone would (last write wins, and saving
    the same note again changes nothing); a toggle and a note commute, in
    the store and in the rows. *)
Theorem admin_edits_compose
        (env : Env) (updateDoc_rejects : string -> option FirestoreError)
        (docId : string) (o : Order) (note1 note2 : string) (status : bool)
        (rows : list (string * Order)) (s : Store) :
  getFirestoreFn env "updateDoc" && getFirestoreFn env "doc" && db env = true ->
  updateDoc_rejects docId = None ->
  orders s !! docId = Some o ->
  let edit1 := updateNote env updateDoc_rejects docId note1 rows s in
  let edit2 := updateNote env updateDoc_rejects docId note2 rows s in
  let toggle := togglePrizeSent env updateDoc_rejects docId status rows s in
  updateNote env updateDoc_rejects docId note2 (adminDataAfter rows edit1) (snd edit1)
  = edit2 /\
  updateNote env updateDoc_rejects docId note2 (adminDataAfter rows edit2) (snd edit2)
  = edit2 /\
  updateNote env updateDoc_rejects docId note1 (adminDataAfter rows toggle) (snd toggle)
  = togglePrizeSent env updateDoc_rejects docId status
                    (adminDataAfter rows edit1) (snd edit1).
Proof.
  intros Hfns Hupd Ho edit1 edit2 toggle. subst edit1 edit2 toggle.
  unfold updateNote, togglePrizeSent.
  rewrite !(editOrder_done env updateDoc_rejects docId _ rows s o Hfns Hupd Ho).
  unfold adminDataAfter. cbn [fst snd].
  assert (forall f g : Order -> Order,
             editOrder env updateDoc_rejects docId g (mapRows docId f rows)
                       (mkStore (<[docId := f o]> (orders s)) (prize_counts s))
             = (inr (MutationDone (mapRows docId (fun x => g (f x)) rows)),
                mkStore (<[docId := g (f o)]> (orders s)) (prize_counts s))) as Hseq.
  { intros f g.
    erewrite editOrder_done; [|exact Hfns|exact Hupd|cbn; apply lookup_insert_eq].
    cbn. rewrite insert_insert_eq.
    replace (mapRows docId g (mapRows docId f rows))
      with (mapRows docId (fun x => g (f x)) rows); [reflexivity|].
    unfold mapRows. rewrite List.map_map. apply List.map_ext. intros [k ok]. cbn.
    destruct (String.eqb k docId) eqn:E; cbn; now rewrite E. }
  rewrite !Hseq.
  assert (forall (f g : Order -> Order),
             (forall x, f x = g x) -> mapRows docId f rows = mapRows docId g rows) as Hext.
  { intros f g Hfg. unfold mapRows. apply List.map_ext. intros [k ok]. cbn.
    now rewrite Hfg. }
  split; [|split].
  - rewrite (Hext _ (setNote note2)) by reflexivity. reflexivity.
  - rewrite (Hext _ (setNote note2)) by reflexivity. reflexivity.
  - rewrite (Hext (fun x => setNote note1 (setPrizeSent (negb status) x))
                  (fun x => setPrizeSent (negb status) (setNote note1 x)))
      by reflexivity.
    reflexivity.
Qed.

Lemma admin_edits_compose_witness :
  let env := readyEnv (1 # 2) (1 # 2) in
  let rows := [("order-1", earlierOrder)] in
  let edit1 := updateNote env (fun _ => None) "order-1" "call back" rows (sampleStore 0) in
  let edit2 := updateNote env (fun _ => None) "order-1" "VIP" rows (sampleStore 0) in
  updateNote env (fun _ => None) "order-1" "VIP" (adminDataAfter rows edit1) (snd edit1)
  = edit2.
Proof.
  cbv zeta.
  apply (admin_edits_compose
           (readyEnv (1 # 2) (1 # 2)) (fun _ => None) "order-1" earlierOrder
           "call back" "VIP" false [("order-1", earlierOrder)] (sampleStore 0));
    reflexivity.
Defined.

(** An admin edit maps the stored documents one to one onto documents
    that differ at most in the edited fields. *)
Lemma editOrder_alike env updateDoc_rejects docId fields rows s :
  (forall x, registeredAlike (fields x) x) ->
  let s' := snd (editOrder env updateDoc_rejects docId fields rows s) in
  (forall k x', orders s' !! k = Some x' ->
                exists x, orders s !! k = Some x /\ registeredAlike x' x) /\
  (forall k x, orders s !! k = Some x ->
               exists x', orders s' !! k = Some x' /\ registeredAlike x' x).
Proof.
  intros Hkeep s'. subst s'.
  assert (forall x, registeredAlike x x) as Hrefl by (intros x; repeat split).
  destruct (editOrder_cases env updateDoc_rejects docId fields rows s)
    as [(o & Ho & ->) | (outcome & -> & _)]; cbn [snd orders].
  2: { split; intros k x Hk; exists x; (split; [exact Hk|apply Hrefl]). }
  split; intros k x Hk.
  - destruct (decide (docId = k)) as [<-|Hne].
    + rewrite lookup_insert_eq in Hk. inversion Hk; subst x.
      exists o. split; [exact Ho|apply Hkeep].
    + rewrite lookup_insert_ne in Hk by exact Hne.
      exists x. split; [exact Hk|apply Hrefl].
  - destruct (decide (docId = k)) as [<-|Hne].
    + rewrite lookup_insert_eq. rewrite Ho in Hk. inversion Hk; subst x.
      exists (fields o). split; [reflexivity|apply Hkeep].
    + rewrite lookup_insert_ne by exact Hne.
      exists x. split; [exact Hk|apply Hrefl].
Qed.

Lemma wellFormedOrder_alike a b :
  registeredAlike a b -> wellFormedOrder b -> wellFormedOrder a.
Proof.
  intros (Hf & He & Hs & Hi & Hn & Ht). unfold wellFormedOrder.
  now rewrite Hf, He, Hs, Hi, Hn, Ht.
Qed.

(** X11: admin edits leave registration alone.  After [togglePrizeSent] or
    [updateNote], whatever the outcome, the same document ids exist, the
    duplicate query answers for every phone and date as before, the stored
    orders are still pairwise distinct in (phone, date) and still well
    formed. *)
Theorem admin_edit_keeps_registration_data
        (env : Env) (updateDoc_rejects : string -> option FirestoreError)
        (docId : string) (currentStatus : bool) (newNote : string)
        (rows : list (string * Order)) (s : Store) (s' : Store) :
  s' = snd (togglePrizeSent env updateDoc_rejects docId currentStatus rows s)
  \/ s' = snd (updateNote env updateDoc_rejects docId newNote rows s) ->
  (forall k, is_Some (orders s' !! k) <-> is_Some (orders s !! k)) /\
  (forall p d, ordersWhere p d s' = [] <-> ordersWhere p d s = []) /\
  (uniquePhoneDate s -> uniquePhoneDate s') /\
  ((forall i x, orders s !! i = Some x -> wellFormedOrder x) ->
   forall i x, orders s' !! i = Some x -> wellFormedOrder x).
Proof.
  intros Hs'.
  assert ((forall k x', orders s' !! k = Some x' ->
                        exists x, orders s !! k = Some x /\ registeredAlike x' x) /\
          (forall k x, orders s !! k = Some x ->
                       exists x', orders s' !! k = Some x' /\ registeredAlike x' x))
    as [Hback Hforth].
  { destruct Hs' as [-> | ->]; apply editOrder_alike; intros x; repeat split. }
  split; [|split; [|split]].
  - intros k. split; intros [x Hx].
    + destruct (Hback k x Hx) as (y & Hy & _). eauto.
    + destruct (Hforth k x Hx) as (y & Hy & _). eauto.
  - intros p d. rewrite !ordersWhere_nil. split; intros H k x Hx.
    + destruct (Hforth k x Hx) as (y & Hy & Hf & _). rewrite <- Hf. eauto.
    + destruct (Hback k x Hx) as (y & Hy & Hf & _). rewrite Hf. eauto.
  - intros Huniq i j x1 x2 Hi Hj Hp Hd.
    destruct (Hback i x1 Hi) as (y1 & Hy1 & Hf1 & _).
    destruct (Hback j x2 Hj) as (y2 & Hy2 & Hf2 & _).
    apply (Huniq i j y1 y2 Hy1 Hy2); congruence.
  - intros Hwf i x Hi. destruct (Hback i x Hi) as (y & Hy & Halike).
    eapply wellFormedOrder_alike; eauto.
Qed.

Lemma admin_edit_keeps_registration_data_witness :
  uniquePhoneDate
    (snd (updateNote (readyEnv (1 # 2) (1 # 2)) (fun _ => None) "order-1" "VIP"
                     [] (sampleStore 0))).
Proof.
  apply (admin_edit_keeps_registration_data
           (readyEnv (1 # 2) (1 # 2)) (fun _ => None) "order-1" false "VIP"
           [] (sampleStore 0) _ (or_intror eq_refl)).
  intros i j o1 o2 Hi Hj _ _. cbn in Hi, Hj.
  apply lookup_singleton_Some in Hi as [<- _].
  apply lookup_singleton_Some in Hj as [<- _]. reflexivity.
Defined.

(** ** Listing and clearing *)

(** X12: a registration shows up where it belongs.  When the admin lists
    are fetched after a successful registration, the new order is on the
    grand-draw tab exactly when the visit lasted four hours or more, and on
    the instant-win tab exactly when the prize it got is a winning one; the
    fetch itself leaves the store as it is. *)
Theorem registered_order_is_listed
        (env fetchEnv : Env) (user : option string) (formData : FormData) (s s' : Store)
        (docId : string) (prize : Prize Q) (serial : option string) :
  handleSubmit env user formData s = (inr (Registered docId prize serial), s') ->
  getFirestoreFn fetchEnv "collection" && getFirestoreFn fetchEnv "getDocs"
  && db fetchEnv = true ->
  getDocs_rejects fetchEnv = None ->
  exists o grand instant,
    orders s' !! docId = Some o /\
    fetchAdminData fetchEnv "grand" s' = (inr (AdminData grand), s') /\
    fetchAdminData fetchEnv "instant" s' = (inr (AdminData instant), s') /\
    (In (docId, o) grand <-> 4 <= duration formData) /\
    (In (docId, o) instant <-> type prize = type_win).
Proof.
  intros Hrun Hfns Hq.
  apply handleSubmit_Registered_inv in Hrun
    as (uid & _ & _ & _ & _ & -> & _ & ->).
  eexists _, _, _. split; [cbn; apply lookup_insert_eq|].
  split; [now apply fetchAdminData_runs|].
  split; [now apply fetchAdminData_runs|].
  rewrite !adminRows_In, <- !list_elem_of_In, !elem_of_map_to_list. cbn [orders].
  rewrite lookup_insert_eq. unfold listedOn, parseInt. cbn.
  rewrite Z.leb_le, bool_decide_eq_true. tauto.
Qed.

Lemma registered_order_is_listed_witness :
  exists o grand instant,
    orders (snd (handleSubmit (readyEnv (1 # 2) (9 # 10)) (Some "demo-user-2")
                              (sampleForm "2025-02-02" 1) (sampleStore 0)))
      !! "order-2" = Some o /\
    fetchAdminData (readyEnv (1 # 2) (1 # 2)) "grand"
                   (snd (handleSubmit (readyEnv (1 # 2) (9 # 10)) (Some "demo-user-2")
                                      (sampleForm "2025-02-02" 1) (sampleStore 0)))
    = (inr (AdminData grand),
       snd (handleSubmit (readyEnv (1 # 2) (9 # 10)) (Some "demo-user-2")
                         (sampleForm "2025-02-02" 1) (sampleStore 0))) /\
    ~ In ("order-2", o) grand /\ In ("order-2", o) instant.
Proof.
  destruct (registered_order_is_listed
              (readyEnv (1 # 2) (9 # 10)) (readyEnv (1 # 2) (1 # 2))
              (Some "demo-user-2") (sampleForm "2025-02-02" 1) (sampleStore 0)
              (snd (handleSubmit (readyEnv (1 # 2) (9 # 10)) (Some "demo-user-2")
                                 (sampleForm "2025-02-02" 1) (sampleStore 0)))
              "order-2" disc_50 None)
    as (o & grand & instant & Ho & Hg & _ & Hing & Hini);
    [vm_compute; reflexivity | reflexivity | reflexivity |].
  exists o, grand, instant. split; [exact Ho|]. split; [exact Hg|].
  split.
  - intros Hin. apply Hing in Hin. cbn in Hin. lia.
  - apply Hini. reflexivity.
Defined.

(** Which documents are left when some deletions reject. *)
Lemma Promise_all_deleteDoc_remaining env ids s k :
  orders (snd (Promise_all_deleteDoc env ids s)) !! k
  = if bool_decide (k ∈ ids)
    then match deleteDoc_rejects env k with
         | None => None
         | Some _ => orders s !! k
         end
    else orders s !! k.
Proof.
  revert s. induction ids as [|i rest IH]; intros s; cbn.
  - rewrite bool_decide_eq_false_2; [reflexivity|apply not_elem_of_nil].
  - unfold deleteDoc. destruct (deleteDoc_rejects env i) as [e|] eqn:Hi.
    + specialize (IH s).
      destruct (Promise_all_deleteDoc env rest s) as [r s1]. cbn [snd] in *.
      rewrite IH. destruct (decide (k ∈ rest)) as [Hin|Hin].
      * rewrite !bool_decide_eq_true_2; [reflexivity|now right|assumption].
      * rewrite (bool_decide_eq_false_2 _ Hin).
        destruct (decide (k = i)) as [->|Hne].
        -- rewrite bool_decide_eq_true_2 by now left. now rewrite Hi.
        -- rewrite bool_decide_eq_false_2; [reflexivity|].
           rewrite elem_of_cons. tauto.
    + rewrite IH. cbn [orders].
      destruct (decide (k = i)) as [->|Hne].
      * rewrite (bool_decide_eq_true_2 (i ∈ i :: rest)) by now left.
        rewrite Hi, lookup_delete_eq. now destruct (bool_decide _).
      * rewrite lookup_delete_ne by congruence.
        destruct (decide (k ∈ rest)) as [Hin|Hin].
        -- rewrite !bool_decide_eq_true_2; [reflexivity|now right|assumption].
        -- rewrite !bool_decide_eq_false_2; [reflexivity| |assumption].
           rewrite elem_of_cons. tauto.
Qed.

Lemma Promise_all_deleteDoc_rejected env ids s i e :
  i ∈ ids -> deleteDoc_rejects env i = Some e ->
  exists e', fst (Promise_all_deleteDoc env ids s) = inl e'.
Proof.
  revert s. induction ids as [|j rest IH]; intros s Hin He.
  - now apply not_elem_of_nil in Hin.
  - cbn. unfold deleteDoc. destruct (deleteDoc_rejects env j) as [ej|] eqn:Hj.
    + destruct (Promise_all_deleteDoc env rest s). eauto.
    + apply elem_of_cons in Hin as [->|Hin]; [congruence|].
      now apply IH.
Qed.

(** X13: a clear that partly fails has no undo.  Once both confirmations
    are given and the orders have been read, every deletion is issued:
    afterwards exactly the orders whose [deleteDoc] rejected are still
    stored, all others are gone, and if any stored order's deletion
    rejected the handler reports a failure, not a count.  Declining either
    confirmation leaves the store untouched. *)
Theorem clearAllData_partial_failure (env : Env) (s : Store) :
  (confirm_first env = false \/ confirm_second env = false ->
   clearAllData env s = (inr ClearCancelled, s)) /\
  (confirm_first env = true -> confirm_second env = true ->
   getFirestoreFn env "collection" && getFirestoreFn env "getDocs"
   && getFirestoreFn env "deleteDoc" && getFirestoreFn env "doc" && db env = true ->
   getDocs_rejects env = None ->
   (forall k, orders (snd (clearAllData env s)) !! k
              = match deleteDoc_rejects env k with
                | None => None
                | Some _ => orders s !! k
                end) /\
   ((exists k o, orders s !! k = Some o /\ deleteDoc_rejects env k <> None) ->
    fst (clearAllData env s) = inr ClearPermissionError
    \/ fst (clearAllData env s) = inr ClearFailed)).
Proof.
  split.
  - intros [H|H]; unfold clearAllData; unfold_M; rewrite H; [reflexivity|].
    now destruct (confirm_first env).
  - intros Hc1 Hc2 Hfns Hq.
    pose proof (Promise_all_deleteDoc_remaining
                  env (List.map fst (map_to_list (orders s))) s) as Hrem.
    assert (forall k, k ∈ List.map fst (map_to_list (orders s))
                      <-> is_Some (orders s !! k)) as Hids.
    { intros k. rewrite list_elem_of_fmap. split.
      - intros ([k0 o] & -> & Hin). apply elem_of_map_to_list in Hin. eauto.
      - intros [o Ho]. exists (k, o). split; [reflexivity|].
        now apply elem_of_map_to_list. }
    unfold clearAllData, getDocs. unfold_M.
    rewrite Hc1, Hc2, Hfns, Hq. cbn [negb].
    destruct (Promise_all_deleteDoc env (List.map fst (map_to_list (orders s))) s)
      as [r s1] eqn:Hdel.
    cbn [snd] in Hrem. split.
    + intros k.
      assert (orders s1 !! k
              = match deleteDoc_rejects env k with
                | None => None
                | Some _ => orders s !! k
                end) as Hk.
      { rewrite Hrem. destruct (decide (k ∈ List.map fst (map_to_list (orders s))))
          as [Hin|Hin].
        - now rewrite bool_decide_eq_true_2.
        - rewrite bool_decide_eq_false_2 by assumption.
          destruct (orders s !! k) eqn:Ek.
          + exfalso. apply Hin, Hids. eauto.
          + now destruct (deleteDoc_rejects env k). }
      destruct r as [[]|[]]; exact Hk.
    + intros (k & o & Ho & Hrej).
      destruct (deleteDoc_rejects env k) as [e|] eqn:He; [|congruence].
      destruct (Promise_all_deleteDoc_rejected
                  env (List.map fst (map_to_list (orders s))) s k e) as [e' He'];
        [apply Hids; eauto|exact He|].
      rewrite Hdel in He'. cbn in He'. subst r.
      destruct e'; cbn; auto.
Qed.

Lemma clearAllData_partial_failure_witness :
  let env := mkEnv (fun _ => true) true None None None
                   (fun k => if String.eqb k "b" then Some other_error else None)
                   (1 # 2) (1 # 2) "order-2" 1738400000 true true in
  fst (clearAllData env adminStore) = inr ClearFailed
  /\ orders (snd (clearAllData env adminStore)) !! "a" = None
  /\ orders (snd (clearAllData env adminStore)) !! "b" = orders adminStore !! "b".
Proof.
  cbv zeta.
  destruct (clearAllData_partial_failure
              (mkEnv (fun _ => true) true None None None
                     (fun k => if String.eqb k "b" then Some other_error else None)
                     (1 # 2) (1 # 2) "order-2" 1738400000 true true) adminStore)
    as [_ H].
  destruct (H eq_refl eq_refl eq_refl eq_refl) as [Hleft Hfail].
  split; [vm_compute; reflexivity|].
  split; [apply (Hleft "a")|apply (Hleft "b")].
Defined.

(** ** Numbers as strings *)

Lemma digitValue_digitChar (d : Z) : 0 <= d <= 9 -> digitValue (digitChar d) = d.
Proof.
  intros H.
  assert (d = 0 \/ d = 1 \/ d = 2 \/ d = 3 \/ d = 4 \/ d = 5 \/ d = 6
          \/ d = 7 \/ d = 8 \/ d = 9) as Hd by lia.
  repeat (destruct Hd as [-> | Hd]; [reflexivity|]). now subst.
Qed.

Lemma digitValue_mod10 (n : Z) : digitValue (digitChar (n mod 10)) = n mod 10.
Proof. apply digitValue_digitChar. pose proof (Z.mod_pos_bound n 10). lia. Qed.

(** Reading the digits written for [n] in front of [acc] is reading [acc]
    from [n]. *)
Lemma decimalFrom_digitsOf fuel n acc :
  0 <= n < 2 ^ Z.of_nat fuel ->
  decimalFrom 0 (digitsOf fuel n acc) = decimalFrom n acc.
Proof.
  revert n acc. induction fuel as [|fuel IH]; intros n acc Hn.
  - cbn in Hn. assert (n = 0) as -> by lia. reflexivity.
  - rewrite Nat2Z.inj_succ, Z.pow_succ_r in Hn by lia.
    cbn [digitsOf].
    pose proof (Z.div_mod n 10 ltac:(lia)) as Hdm.
    pose proof (Z.mod_pos_bound n 10 ltac:(lia)) as Hm.
    destruct (Z.eqb_spec (n / 10) 0) as [Hz|Hnz].
    + cbn [decimalFrom]. rewrite digitValue_mod10. f_equal. lia.
    + rewrite IH.
      * cbn [decimalFrom]. rewrite digitValue_mod10. f_equal. lia.
      * split; [apply Z.div_pos; lia|].
        apply Z.div_lt_upper_bound; lia.
Qed.

Lemma allDigits_digitsOf fuel n acc :
  allDigits acc = true -> allDigits (digitsOf fuel n acc) = true.
Proof.
  revert n acc. induction fuel as [|fuel IH]; intros n acc Hacc; [exact Hacc|].
  cbn [digitsOf]. destruct (n / 10 =? 0).
  - cbn. now rewrite isDigit_mod10.
  - apply IH. cbn. now rewrite isDigit_mod10.
Qed.

Lemma toString_fuel n : 0 <= n -> n < 2 ^ Z.of_nat (S (Z.to_nat (Z.log2 n))).
Proof.
  intros Hn. rewrite Nat2Z.inj_succ, Z2Nat.id by apply Z.log2_nonneg.
  destruct (Z.eq_dec n 0) as [->|Hnz]; [reflexivity|].
  apply Z.log2_spec. lia.
Qed.

Lemma decimalValue_toString_nonneg n : 0 <= n -> decimalValue (toString n) = n.
Proof.
  intros Hn. unfold decimalValue, toString.
  destruct (Z.ltb_spec n 0) as [?|_]; [lia|].
  rewrite decimalFrom_digitsOf; [reflexivity|].
  split; [exact Hn|now apply toString_fuel].
Qed.

Lemma allDigits_toString_nonneg n : 0 <= n -> allDigits (toString n) = true.
Proof.
  intros Hn. unfold toString. destruct (Z.ltb_spec n 0) as [?|_]; [lia|].
  now apply allDigits_digitsOf.
Qed.

(** X14: the duration select.  Its [onChange] handler stores
    [parseInt(e.target.value)], and the value of an option is its number
    written out.  For every integer from 0 up to [2^53 - 1] (the integers a
    JavaScript number holds exactly and writes digit by digit), choosing
    the option that carries it stores that same number in
    [formData.duration]; the value sent consists of digits only; and two
    different numbers of that range are never sent as the same value. *)
Theorem toString_roundtrip (n : Z) (formData : FormData) :
  0 <= n < 2 ^ 53 ->
  duration (onChange (ChangeDuration (toString n)) formData) = n /\
  allDigits (toString n) = true /\
  (forall m, 0 <= m < 2 ^ 53 -> toString m = toString n -> m = n).
Proof.
  intros [Hn _]. cbn [onChange duration].
  split; [now apply decimalValue_toString_nonneg|]. split.
  - now apply allDigits_toString_nonneg.
  - intros m [Hm _] E.
    rewrite <- (decimalValue_toString_nonneg m Hm), E.
    now apply decimalValue_toString_nonneg.
Qed.

Lemma toString_roundtrip_witness :
  duration (onChange (ChangeDuration (toString 12)) (initialFormData "2025-02-01")) = 12
  /\ toString 12 = "12" /\ toString 0 = "0".
Proof.
  split; [|split; reflexivity].
  exact (proj1 (toString_roundtrip 12 (initialFormData "2025-02-01") ltac:(lia))).
Defined.

(** How many characters [toString] writes. *)
Lemma digitsOf_length (k fuel : nat) (n : Z) (acc : string) :
  10 ^ Z.of_nat k <= n < 10 ^ Z.of_nat (S k) ->
  n < 2 ^ Z.of_nat fuel ->
  String.length (digitsOf fuel n acc) = (S k + String.length acc)%nat.
Proof.
  revert fuel n acc. induction k as [|k IH]; intros fuel n acc Hn Hf.
  - cbn in Hn. destruct fuel as [|fuel]; [cbn in Hf; lia|].
    cbn [digitsOf]. rewrite (proj2 (Z.eqb_eq (n / 10) 0)); [reflexivity|].
    apply Z.div_small. lia.
  - rewrite !Nat2Z.inj_succ, !Z.pow_succ_r in Hn by lia.
    rewrite Nat2Z.inj_succ, Z.pow_succ_r in IH by lia.
    assert (0 < 10 ^ Z.of_nat k) as Hpos by (apply Z.pow_pos_nonneg; lia).
    destruct fuel as [|fuel]; [cbn in Hf; lia|].
    rewrite Nat2Z.inj_succ, Z.pow_succ_r in Hf by lia.
    cbn [digitsOf].
    assert (10 ^ Z.of_nat k <= n / 10 < 10 * 10 ^ Z.of_nat k) as Hq.
    { split; [apply Z.div_le_lower_bound; lia|apply Z.div_lt_upper_bound; lia]. }
    destruct (Z.eqb_spec (n / 10) 0) as [Hz|_]; [lia|].
    rewrite IH; [cbn; lia|exact Hq|].
    apply Z.div_lt_upper_bound; lia.
Qed.

(** A number below 100 padded to two characters: its two decimal digits. *)
Lemma padStart_twoDigits (k : Z) :
  0 <= k <= 99 ->
  padStart 2 "0" (toString k)
  = String (digitChar (k / 10)) (String (digitChar (k mod 10)) EmptyString).
Proof.
  intros Hk. unfold toString. destruct (Z.ltb_spec k 0) as [?|_]; [lia|].
  destruct (Z.lt_ge_cases k 10) as [Hlt|Hge].
  - cbn [digitsOf]. rewrite (Z.div_small k 10) by lia. cbn. reflexivity.
  - assert (3 <= Z.log2 k) as Hlog.
    { change 3 with (Z.log2 8). apply Z.log2_le_mono. lia. }
    destruct (Z.to_nat (Z.log2 k)) as [|f] eqn:Ef; [lia|].
    cbn [digitsOf].
    assert (k / 10 <> 0) as H1.
    { pose proof (Z.div_str_pos k 10 ltac:(lia)). lia. }
    assert (k / 10 / 10 = 0) as H2.
    { rewrite Z.div_div by lia. apply Z.div_small. lia. }
    destruct (Z.eqb_spec (k / 10) 0) as [?|_]; [contradiction|].
    rewrite (proj2 (Z.eqb_eq _ 0) H2).
    rewrite (Z.mod_small (k / 10) 10); [reflexivity|].
    split; [apply Z.div_pos; lia|apply Z.div_lt_upper_bound; lia].
Qed.

Lemma decimalValue_twoDigits (k : Z) :
  0 <= k <= 99 ->
  decimalValue (String (digitChar (k / 10)) (String (digitChar (k mod 10)) EmptyString)) = k.
Proof.
  intros Hk. unfold decimalValue. cbn [decimalFrom].
  rewrite digitValue_mod10, digitValue_digitChar.
  - pose proof (Z.div_mod k 10 ltac:(lia)). lia.
  - split; [apply Z.div_pos; lia|].
    assert (k / 10 < 10) by (apply Z.div_lt_upper_bound; lia). lia.
Qed.

Lemma append_String c s t : String.append (String c s) t = String c (String.append s t).
Proof. reflexivity. Qed.

Lemma append_Empty t : String.append EmptyString t = t.
Proof. reflexivity. Qed.

(** X15: for any date of a four-digit year, [getTodayDateString] writes
    YYYY-MM-DD: ten characters, digits and two dashes, month and day padded
    to two digits, the month counted from 1; the three numbers can be read
    back from it, so different dates give different strings. *)
Theorem getTodayDateString_format (fullYear month day : Z) :
  1000 <= fullYear <= 9999 -> 0 <= month <= 11 -> 1 <= day <= 31 ->
  dateFormat_test (getTodayDateString fullYear month day) = true /\
  dateParts (getTodayDateString fullYear month day) = (fullYear, month + 1, day).
Proof.
  intros Hy Hm Hd. unfold getTodayDateString.
  rewrite (padStart_twoDigits (month + 1)), (padStart_twoDigits day) by lia.
  assert (String.length (toString fullYear) = 4%nat) as Hlen.
  { unfold toString. destruct (Z.ltb_spec fullYear 0) as [?|_]; [lia|].
    rewrite (digitsOf_length 3); [reflexivity|cbn; lia|apply toString_fuel; lia]. }
  pose proof (decimalValue_toString_nonneg fullYear ltac:(lia)) as Hval.
  pose proof (allDigits_toString_nonneg fullYear ltac:(lia)) as Hdig.
  destruct (toString fullYear) as [|y1 [|y2 [|y3 [|y4 [|y5 rest]]]]];
    try discriminate.
  cbn in Hdig. repeat (apply andb_prop in Hdig as [? Hdig]).
  rewrite !append_String, !append_Empty.
  split.
  - cbv beta iota delta [dateFormat_test].
    assert (forall k, 0 <= k <= 99 -> isDigit (digitChar (k / 10)) = true) as Htens.
    { intros k Hk. apply isDigit_digitChar. split; [apply Z.div_pos; lia|].
      assert (k / 10 < 10) by (apply Z.div_lt_upper_bound; lia). lia. }
    match goal with
    | H1 : isDigit y1 = true, H2 : isDigit y2 = true,
      H3 : isDigit y3 = true, H4 : isDigit y4 = true |- _ =>
        rewrite H1, H2, H3, H4
    end.
    rewrite !isDigit_mod10, !Htens by lia. reflexivity.
  - unfold dateParts. cbn [String.substring].
    rewrite Hval, !decimalValue_twoDigits by lia. reflexivity.
Qed.

Lemma getTodayDateString_format_witness :
  getTodayDateString 2025 1 1 = "2025-02-01"
  /\ dateParts (getTodayDateString 2025 1 1) = (2025, 2, 1)
  /\ getTodayDateString 2025 11 31 = "2025-12-31".
Proof.
  split; [reflexivity|]. split; [|reflexivity].
  apply (getTodayDateString_format 2025 1 1); lia.
Defined.

(** ** The registration form *)

Lemma roomsOf_nonempty b :
  In b BRANCHES -> In (firstOrEmpty (roomsOf b)) (roomsOf b).
Proof.
  intros Hb. cbn in Hb.
  repeat (destruct Hb as [<- | Hb]; [now left|]). destruct Hb.
Qed.

Lemma onChange_formInRange e formData :
  formInRange formData -> offered formData e -> formInRange (onChange e formData).
Proof.
  intros (Hb & Hr & Hd) He. destruct e as [v|v|v|v|v]; cbn in He |- *.
  - split; [exact Hb|split; [exact Hr|exact Hd]].
  - split; [exact Hb|split; [exact Hr|exact Hd]].
  - split; [exact He|split; [|exact Hd]]. cbn. now apply roomsOf_nonempty.
  - split; [exact Hb|split; [exact He|exact Hd]].
  - split; [exact Hb|split; [exact Hr|]]. cbn [duration].
    destruct He as ([label val] & Hin & ->). cbn [snd].
    assert (0 <= val) as Hval.
    { cbn in Hin. repeat (destruct Hin as [E | Hin]; [inversion E; lia|]).
      destruct Hin. }
    rewrite decimalValue_toString_nonneg by exact Hval.
    exact (List.in_map snd DURATIONS (label, val) Hin).
Qed.

(** X17: the form only ever holds a room of the selected branch.  Starting
    from the initial form and changing the controls in any order (each
    select sending one of the options it shows), the branch is one of
    [BRANCHES], the room is one of that branch's rooms (changing the branch
    resets the room to the branch's first room), and the duration is one
    of the listed durations. *)
Theorem fillForm_formInRange (today : string) (events : list FormEvent) :
  offeredAll events (initialFormData today) ->
  formInRange (fillForm events (initialFormData today)).
Proof.
  assert (formInRange (initialFormData today)) as Hinit.
  { unfold formInRange, initialFormData. cbn. tauto. }
  revert Hinit. generalize (initialFormData today). intros f. revert f.
  induction events as [|e rest IH]; intros f Hf Hev; [exact Hf|].
  destruct Hev as [He Hrest]. cbn. apply IH; [|exact Hrest].
  now apply onChange_formInRange.
Qed.

Lemma fillForm_formInRange_witness :
  formInRange
    (fillForm [ChangePhone "0912345678"; ChangeBranch "南崁店"; ChangeRoom "3條";
               ChangeDuration "12"; ChangeBranch "楊梅店"]
              (initialFormData "2025-02-01"))
  /\ room (fillForm [ChangePhone "0912345678"; ChangeBranch "南崁店"; ChangeRoom "3條";
                     ChangeDuration "12"; ChangeBranch "楊梅店"]
                    (initialFormData "2025-02-01")) = "康".
Proof.
  split; [|reflexivity].
  apply fillForm_formInRange. cbn.
  split; [exact I|]. split; [tauto|]. split; [tauto|].
  split; [|split; [tauto|exact I]].
  exists ("12小時", 12). split; [tauto|reflexivity].
Defined.

(** ** The selection loop on any table *)

Section WeightedSelectionOrder.
Context {num : Type}.
Variable zero : num.
Variable add : num -> num -> num.
Variables leb ltb : num -> num -> bool.
Hypothesis leb_trans :
  forall x y z, leb x y = true -> leb y z = true -> leb x z = true.
Hypothesis ltb_not_leb : forall x y, ltb x y = true -> leb y x = false.

Lemma cumulativeSums_app (pre post : list (Prize num)) (c : num) :
  cumulativeSums add (pre ++ post) c
  = (cumulativeSums add pre c
       ++ cumulativeSums add post (fold_left add (List.map prob pre) c))%list.
Proof.
  revert c. induction pre as [|q pre IH]; intros c; cbn; [reflexivity|].
  now rewrite IH.
Qed.

Lemma last_cons_default (y : num) (l : list num) (d d' : num) :
  List.last (y :: l) d = List.last (y :: l) d'.
Proof.
  revert y. induction l as [|z l IHl]; intros y; [reflexivity|]. apply (IHl z).
Qed.

Lemma cumulativeSums_last (ps : list (Prize num)) (c : num) :
  List.last (c :: cumulativeSums add ps c) c = fold_left add (List.map prob ps) c.
Proof.
  revert c. induction ps as [|q ps IH]; intros c; [reflexivity|].
  cbn [cumulativeSums List.map fold_left]. rewrite <- IH.
  apply (last_cons_default (add c (prob q))).
Qed.

Lemma nondecreasing_app_l (l1 l2 : list num) :
  nondecreasing leb (l1 ++ l2) = true -> nondecreasing leb l1 = true.
Proof.
  revert l2. induction l1 as [|a l1 IH]; intros l2 H; [reflexivity|].
  destruct l1 as [|b l1]; [reflexivity|].
  cbn in H |- *. apply andb_prop in H as [H1 H2].
  rewrite H1. exact (IH l2 H2).
Qed.

(** A value above the last of a non-decreasing run of sums is above each. *)
Lemma nondecreasing_above (x : num) (l : list num) (rand : num) :
  nondecreasing leb (x :: l) = true ->
  ltb (List.last (x :: l) x) rand = true ->
  forallb (fun s => negb (leb rand s)) (x :: l) = true.
Proof.
  revert x. induction l as [|y l IH]; intros x Hnd Hlast.
  - cbn in *. now rewrite (ltb_not_leb _ _ Hlast).
  - cbn [nondecreasing] in Hnd. apply andb_prop in Hnd as [Hxy Hnd].
    change (List.last (x :: y :: l) x) with (List.last (y :: l) x) in Hlast.
    rewrite (last_cons_default y l x y) in Hlast.
    specialize (IH y Hnd Hlast).
    change (negb (leb rand x) && forallb (fun s => negb (leb rand s)) (y :: l) = true).
    rewrite IH, andb_true_r.
    cbn [forallb] in IH. apply andb_prop in IH as [Hy _].
    apply negb_true_iff in Hy. apply negb_true_iff.
    destruct (leb rand x) eqn:Hx; [|reflexivity].
    now rewrite (leb_trans _ _ _ Hx Hxy) in Hy.
Qed.

Lemma cumulativeSums_above (ps : list (Prize num)) (rand : num) :
  ps <> [] ->
  nondecreasing leb (cumulativeSums add ps zero) = true ->
  ltb (fold_left add (List.map prob ps) zero) rand = true ->
  forallb (fun s => negb (leb rand s)) (cumulativeSums add ps zero) = true.
Proof.
  destruct ps as [|q ps]; [congruence|]. intros _ Hnd Hlt.
  cbn [cumulativeSums] in *. apply nondecreasing_above; [exact Hnd|].
  cbn [List.map fold_left] in Hlt.
  now rewrite cumulativeSums_last.
Qed.

(** X18: the selection loop on an arbitrary prize table, for any number
    type whose [<=] is transitive and whose [<] excludes the converse [<=]
    (binary64 and the rationals both are), provided the running sums of the
    table do not decrease.  An entry is returned for the random values
    above the running sum before it (any value, for the first entry) and
    up to its own running sum; a value above the last running sum returns
    the initial selection. *)
Theorem weightedSelect_interval
        (first p : Prize num) (pre post : list (Prize num)) (rand : num) :
  nondecreasing leb (cumulativeSums add (pre ++ p :: post) zero) = true ->
  ((pre = [] \/ ltb (fold_left add (List.map prob pre) zero) rand = true) ->
   leb rand (add (fold_left add (List.map prob pre) zero) (prob p)) = true ->
   weightedSelect zero add leb first (pre ++ p :: post) rand = p) /\
  (ltb (fold_left add (List.map prob (pre ++ p :: post)) zero) rand = true ->
   weightedSelect zero add leb first (pre ++ p :: post) rand = first).
Proof.
  intros Hnd. split.
  - intros Hlow Hhigh. unfold weightedSelect.
    apply selectFrom_first_match.
    + destruct Hlow as [-> | Hlow]; [reflexivity|].
      destruct pre as [|q pre]; [reflexivity|].
      apply cumulativeSums_above; [discriminate| |exact Hlow].
      rewrite cumulativeSums_app in Hnd. now apply nondecreasing_app_l in Hnd.
    + rewrite List.map_app, fold_left_app. exact Hhigh.
  - intros Habove. unfold weightedSelect.
    apply selectFrom_no_match.
    apply cumulativeSums_above; [now destruct pre|exact Hnd|exact Habove].
Qed.
End WeightedSelectionOrder.

Lemma weightedSelect_interval_witness :
  Binary64.selectPrize (Binary64.runningSum 2) = Binary64.entry 2
  /\ Binary64.selectPrize PrimFloat.two = Binary64.PRIZES_0
  /\ weightedSelect 0%Q Qplus Qleb none_1 [none_1; ext_2h; free_4h] (2 # 5) = ext_2h.
Proof.
  split; [|split].
  - apply (weightedSelect_interval PrimFloat.zero PrimFloat.add PrimFloat.leb PrimFloat.ltb
             Binary64_leb_trans Binary64_ltb_not_leb
             Binary64.PRIZES_0 (Binary64.entry 2)
             [Binary64.entry 0; Binary64.entry 1]
             [Binary64.entry 3; Binary64.entry 4; Binary64.entry 5; Binary64.entry 6]
             (Binary64.runningSum 2));
      [reflexivity | right; reflexivity | reflexivity].
  - apply (weightedSelect_interval PrimFloat.zero PrimFloat.add PrimFloat.leb PrimFloat.ltb
             Binary64_leb_trans Binary64_ltb_not_leb
             Binary64.PRIZES_0 (Binary64.entry 0) []
             [Binary64.entry 1; Binary64.entry 2; Binary64.entry 3; Binary64.entry 4;
              Binary64.entry 5; Binary64.entry 6]
             PrimFloat.two);
      reflexivity.
  - apply (weightedSelect_interval 0%Q Qplus Qleb Qltb
             (fun x y z Hxy Hyz =>
                proj2 (Qleb_true x z)
                      (Qle_trans _ _ _ (proj1 (Qleb_true x y) Hxy) (proj1 (Qleb_true y z) Hyz)))
             (fun x y Hxy => proj2 (Qleb_false y x) (proj1 (Qltb_true x y) Hxy))
             none_1 ext_2h [none_1] [free_4h] (2 # 5));
      [reflexivity | right; reflexivity | reflexivity].
Defined.

(** ** More on the reveal detector *)

(** X20: [checkReveal] in whole pixels.  The card is revealed by a check
    exactly when strictly more than three quarters of the pixels are
    transparent (alpha below 128): with exactly 75% cleared, or on an empty
    canvas, the check does nothing. *)
Theorem checkReveal_three_quarters (s : Scratch) :
  (isRevealed (checkReveal s) = true
   <-> isRevealed s = true
       \/ 3 * Z.of_nat (length (alpha s)) < 4 * countTransparent (alpha s)) /\
  (4 * countTransparent (alpha s) = 3 * Z.of_nat (length (alpha s)) ->
   checkReveal s = s) /\
  (alpha s = [] -> checkReveal s = s).
Proof.
  assert (exceedsThreshold (alpha s) = true
          <-> 3 * Z.of_nat (length (alpha s)) < 4 * countTransparent (alpha s)) as Hthr.
  { rewrite exceedsThreshold_spec. lia. }
  split; [|split].
  - rewrite checkReveal_isRevealed, orb_true_iff, Hthr. reflexivity.
  - intros Heq. unfold checkReveal.
    destruct (exceedsThreshold (alpha s)); [|reflexivity].
    pose proof (proj1 Hthr eq_refl). lia.
  - intros Hempty. unfold checkReveal.
    destruct (exceedsThreshold (alpha s)); [|reflexivity].
    pose proof (proj1 Hthr eq_refl) as E. rewrite Hempty in E. cbn in E. lia.
Qed.

Lemma checkReveal_three_quarters_witness :
  checkReveal (mkScratch 2 2 [0; 0; 0; 255] true false false false 0)
  = mkScratch 2 2 [0; 0; 0; 255] true false false false 0.
Proof.
  apply (proj1 (proj2 (checkReveal_three_quarters
           (mkScratch 2 2 [0; 0; 0; 255] true false false false 0)))).
  reflexivity.
Defined.

Section ScratchCardMore.
Variable fillArc : Z -> Z -> Q -> Q -> list Z -> list Z.

(** A release on a revealed card whose overlay is past the threshold sets
    the [onComplete] timer once more and changes nothing else that the
    detector reads. *)
Lemma release_on_revealed s :
  isRevealed s = true -> exceedsThreshold (alpha s) = true ->
  isRevealed (dispatch fillArc PointerUp s) = true
  /\ alpha (dispatch fillArc PointerUp s) = alpha s
  /\ completions (dispatch fillArc PointerUp s) = S (completions s).
Proof.
  intros Hrev Hexc. unfold dispatch, handle, endDraw, checkReveal. cbn.
  rewrite Hexc. cbn. auto.
Qed.

Lemma releases_on_revealed k s :
  isRevealed s = true -> exceedsThreshold (alpha s) = true ->
  isRevealed (run fillArc (List.repeat PointerUp k) s) = true
  /\ completions (run fillArc (List.repeat PointerUp k) s) = (completions s + k)%nat.
Proof.
  revert s. induction k as [|k IH]; intros s Hrev Hexc; cbn.
  - split; [exact Hrev|lia].
  - destruct (release_on_revealed s Hrev Hexc) as (Hr & Ha & Hc).
    destruct (IH (dispatch fillArc PointerUp s) Hr) as [Hr' Hc'];
      [now rewrite Ha|].
    split; [exact Hr'|]. unfold run in *. rewrite Hc', Hc. lia.
Qed.

(** X21: the completion callback can be scheduled more than once.  The
    drag that reveals the card sets the [onComplete] timer, and every
    pointer release that follows sets it again, because [endDraw] runs
    [checkReveal] without looking at the revealed flag: after the revealing
    drag and [k] releases the timer has been set [1 + k] times; the card
    stays revealed throughout. *)
Theorem release_schedules_again
        (w h : Z) (pre : list Event) (x y : Q) (k : nat) :
  isRevealed (run fillArc pre (mounted w h)) = false ->
  isRevealed (run fillArc (pre ++ [PointerMove x y]) (mounted w h)) = true ->
  isRevealed (run fillArc (pre ++ PointerMove x y :: List.repeat PointerUp k)
                  (mounted w h)) = true /\
  completions (run fillArc (pre ++ PointerMove x y :: List.repeat PointerUp k)
                   (mounted w h))
  = (completions (run fillArc pre (mounted w h)) + 1 + k)%nat.
Proof.
  intros Hact Hrev.
  pose proof (run_settled fillArc pre _ (mounted_settled w h)) as Hset.
  rewrite run_snoc in Hrev.
  replace (pre ++ PointerMove x y :: List.repeat PointerUp k)%list
    with ((pre ++ [PointerMove x y]) ++ List.repeat PointerUp k)%list
    by (now rewrite <- List.app_assoc).
  rewrite (run_app fillArc (pre ++ [PointerMove x y])), run_snoc.
  assert (exceedsThreshold
            (alpha (dispatch fillArc (PointerMove x y) (run fillArc pre (mounted w h))))
          = true) as Hexc.
  { pose proof (dispatch_isRevealed fillArc (PointerMove x y) _ Hset) as H.
    rewrite Hrev, Hact in H. cbn in H. now symmetry. }
  destruct (releases_on_revealed k _ Hrev Hexc) as [Hr Hc].
  split; [exact Hr|]. rewrite Hc.
  rewrite (dispatch_completions fillArc (PointerMove x y) _ Hset eq_refl).
  rewrite Hact, Hrev. cbn. lia.
Qed.

End ScratchCardMore.

Lemma release_schedules_again_witness :
  completions (run discFill
                   ([PointerDown; PointerMove 20 20]
                      ++ PointerMove 40 20 :: List.repeat PointerUp 3)
                   (mounted 60 40))
  = (completions (run discFill [PointerDown; PointerMove 20 20] (mounted 60 40))
     + 1 + 3)%nat.
Proof.
  apply (release_schedules_again discFill 60 40
           [PointerDown; PointerMove 20 20] 40 20 3);
    vm_compute; reflexivity.
Defined.
